(** * geocode.py: the batch geocoding runner

    A shallow embedding of [geocode_address] and [main] of [geocode.py].
    The script reads [public/libraries.csv], asks Nominatim for the
    coordinates of every address, sleeps one second between two requests
    and dumps the collected coordinates to [public/library-coords.json].

    Effects are modelled by an exception monad over the trace of events the
    process has performed so far; the file system and the network are an
    explicit environment. *)

From Stdlib Require Import ZArith String Ascii List.
From Stdlib Require Import Floats.PrimFloat.
From stdpp Require Import base decidable option list strings pretty gmap.

#[local] Set Warnings "-clear-no-such-hyp".

(** ** Python values the script manipulates *)

(** A CSV cell as [csv.DictReader] hands it out: a string, or [None] for a
    field that a short line does not have. *)
Inductive cell :=
| Str (s : string)
| NoneVal.

Global Instance cell_eq_dec : EqDecision cell.
Proof. solve_decision. Defined.

(** [str(x)], as the f-strings and [urlencode] apply it. *)
Definition str (c : cell) : string :=
  match c with
  | Str s => s
  | NoneVal => "None"
  end.

(** The value of [json.loads]. *)
#[warnings="-register-all"]
Inductive json :=
| JNull
| JBool (b : bool)
| JInt (z : Z)
| JFloat (f : float)
| JStr (s : string)
| JArr (items : list json)
| JObj (members : list (string * json)).

(** The dict that [geocode_address] returns. *)
Record Coordinate := { lat : float; lng : float }.

(** ** Python dicts: insertion ordered, assignment keeps the place of a key *)

Section pydict.
Context {K V : Type} `{EqDecision K}.

(** [d[k]], [None] standing for [KeyError]. *)
Fixpoint dict_get (d : list (K * V)) (k : K) : option V :=
  match d with
  | [] => None
  | (k', v) :: d' => if decide (k' = k) then Some v else dict_get d' k
  end.

(** [d[k] = v]: an existing key keeps its position and gets the new
    value, a new key goes to the end. *)
Fixpoint dict_set (d : list (K * V)) (k : K) (v : V) : list (K * V) :=
  match d with
  | [] => [(k, v)]
  | (k', v') :: d' =>
      if decide (k' = k) then (k', v) :: d' else (k', v') :: dict_set d' k v
  end.

Definition keys (d : list (K * V)) : list K := d.*1.
End pydict.

(** [coords]: library id to coordinate. *)
Definition ResultMap := list (cell * Coordinate).

(** ** Exceptions and events *)

Inductive subscript :=
| SubStr (s : string)
| SubInt (z : Z).

Inductive exn :=
| OSError (path : string)
| KeyError (k : subscript)
| IndexError
| TypeError
| ValueError
| OverflowError
| URLError
| HTTPError (code : Z)
| JSONDecodeError.

Record request := { url : string; headers : list (string * string) }.

(** [EvWrite path coords]: the file was opened for writing and [coords]
    dumped into it. [EvTruncate path]: the file was opened for writing,
    which empties it, and the dump then failed; what the file holds is not
    a map. *)
Inductive event :=
| EvPrint (text : string)
| EvRequest (req : request)
| EvSleep (seconds : Z)
| EvWrite (path : string) (coords : ResultMap)
| EvTruncate (path : string).

(** ** The environment of a run *)

(** What [open(INPUT_CSV)] and [csv.reader] give: nothing when the file is
    missing or cannot be read, else its lines split into fields. *)
Inductive input_file :=
| Unreadable
| Lines (ls : list (list string)).

(** What [urlopen] followed by [json.loads(response.read().decode())]
    gives. *)
Inductive reply :=
| NetworkFailure
| BadStatus (code : Z)
| Malformed
| Parsed (data : json).

(** What [open(OUTPUT_JSON, "w")] and [json.dump] come to: the dump
    succeeds; or the file opens, and is emptied, but writing or closing it
    fails; or the file does not open. *)
Inductive out_state :=
| Writes
| TruncatesThenFails
| CannotOpen.

(** [net k req] is the service's answer to [req] when it is the request
    number [k] of the process: the service may answer the same request
    differently over time. *)
Record env := {
  input : input_file;
  net : nat -> request -> reply;
  output : out_state
}.

(** The output file can be opened and written. *)
Definition out_writable (E : env) : bool :=
  match output E with
  | Writes => true
  | TruncatesThenFails | CannotOpen => false
  end.

(** ** The monad: exceptions over the trace of events *)

Inductive result (A : Type) :=
| Return (a : A)
| Raise (e : exn).
Arguments Return {A} a.
Arguments Raise {A} e.

Definition trace := list event.
Definition M (A : Type) := trace -> result A * trace.

Definition ret {A} (a : A) : M A := fun tr => (Return a, tr).
Definition raise {A} (e : exn) : M A := fun tr => (Raise e, tr).
Definition bind {A B} (m : M A) (k : A -> M B) : M B :=
  fun tr =>
    match m tr with
    | (Return a, tr') => k a tr'
    | (Raise e, tr') => (Raise e, tr')
    end.
Definition emit (e : event) : M unit := fun tr => (Return tt, tr ++ [e]).
Definition lift {A} (r : result A) : M A := fun tr => (r, tr).

Definition rbind {A B} (r : result A) (k : A -> result B) : result B :=
  match r with
  | Return a => k a
  | Raise e => Raise e
  end.

Notation "'do' x <- m ; k" := (bind m (fun x => k))
  (at level 10, x name, m at level 100, k at level 200).
Notation "m ;; k" := (bind m (fun _ => k))
  (at level 100, k at level 200, right associativity).
Notation "'try' x <- r ; k" := (rbind r (fun x => k))
  (at level 10, x name, r at level 100, k at level 200).

(** ** Constants *)

Definition INPUT_CSV := "public/libraries.csv".
Definition OUTPUT_JSON := "public/library-coords.json".
Definition NOMINATIM_URL := "https://nominatim.openstreetmap.org/search".

Definition nl : string := String (ascii_of_nat 10) "".

(** ** [csv.DictReader] *)

(** A row of the reader: the dict of the named fields and, for a line
    longer than the header, the surplus stored under the key [None]. *)
Record row := {
  fields : list (string * cell);
  restkey : option (list string)
}.

(** [DictReader.__next__] on one non-blank line: [dict(zip(fieldnames,
    line))], then the surplus of a long line, or [None] for every field a
    short line lacks. *)
Definition make_row (fieldnames line : list string) : row :=
  let d := foldl (fun d kv => dict_set d kv.1 (Str kv.2)) [] (zip fieldnames line) in
  let lf := length fieldnames in
  let lr := length line in
  if lf <? lr then {| fields := d; restkey := Some (drop lf line) |}
  else if lr <? lf then
    {| fields := foldl (fun d k => dict_set d k NoneVal) d (drop lr fieldnames);
       restkey := None |}
  else {| fields := d; restkey := None |}.

Definition is_blank (line : list string) : bool :=
  match line with [] => true | _ => false end.

(** [list(csv.DictReader(f))]: the first line names the fields, blank
    lines after it are skipped. *)
Definition dict_reader (ls : list (list string)) : list row :=
  match ls with
  | [] => []
  | fieldnames :: body =>
      map (make_row fieldnames) (List.filter (fun l => negb (is_blank l)) body)
  end.

(** ** JSON values as Python sees them *)

(** [bool(v)], the test of [if data:]. *)
Definition truthy (v : json) : bool :=
  match v with
  | JNull => false
  | JBool b => b
  | JInt z => negb (z =? 0)%Z
  | JFloat f => negb (PrimFloat.eqb f 0%float)
  | JStr s => negb (String.eqb s "")
  | JArr items => match items with [] => false | _ => true end
  | JObj members => match members with [] => false | _ => true end
  end.

(** [v[0]]. *)
Definition first_item (v : json) : result json :=
  match v with
  | JArr (x :: _) => Return x
  | JArr [] => Raise IndexError
  | JStr (String a _) => Return (JStr (String a ""))
  | JStr EmptyString => Raise IndexError
  | JObj _ => Raise (KeyError (SubInt 0))
  | _ => Raise TypeError
  end.

(** [v[name]]. *)
Definition member (v : json) (name : string) : result json :=
  match v with
  | JObj members =>
      match dict_get members name with
      | Some x => Return x
      | None => Raise (KeyError (SubStr name))
      end
  | _ => Raise TypeError
  end.

(** The requests of a trace, oldest first. *)
Definition requests (tr : trace) : list request :=
  omap (fun e => match e with EvRequest r => Some r | _ => None end) tr.

Definition n_requests (tr : trace) : nat := length (requests tr).

(** The two views of a trace that the rate limit is about. *)
Inductive gate := Lookup | Delay.

Definition gate_view (tr : trace) : list gate :=
  omap (fun e => match e with
                 | EvRequest _ => Some Lookup
                 | EvSleep _ => Some Delay
                 | _ => None
                 end) tr.

(** The seconds slept, oldest first. *)
Definition delays (tr : trace) : list Z :=
  omap (fun e => match e with EvSleep s => Some s | _ => None end) tr.

(** What the run has dumped, oldest first. *)
Definition writes (tr : trace) : list (string * ResultMap) :=
  omap (fun e => match e with EvWrite p d => Some (p, d) | _ => None end) tr.

(** The files whose content the run has changed, oldest first. *)
Definition touched (tr : trace) : list string :=
  omap (fun e => match e with
                 | EvWrite p _ | EvTruncate p => Some p
                 | _ => None
                 end) tr.

(** ** The script *)

(** Functions of the Python runtime that the script calls. *)
Class Runtime := {
  float_of_str : string -> option float;  (* [float(s)], [None]: ValueError *)
  float_of_int : Z -> option float;       (* [float(n)], [None]: OverflowError *)
  fmt4f : float -> string;                (* [f"{x:.4f}"] *)
  quote_plus : string -> string           (* [urllib.parse.quote_plus] *)
}.

Section Runner.
Context `{RT : Runtime}.
Variable E : env.

(** [float(v)]. *)
Definition to_float (v : json) : result float :=
  match v with
  | JStr s =>
      match float_of_str s with Some f => Return f | None => Raise ValueError end
  | JInt z =>
      match float_of_int z with Some f => Return f | None => Raise OverflowError end
  | JFloat f => Return f
  | JBool b => Return (if b then 1%float else 0%float)
  | _ => Raise TypeError
  end.

(** [urllib.parse.urlencode] of a dict whose values went through [str]. *)
Definition urlencode (params : list (string * string)) : string :=
  String.concat "&"
    (map (fun kv => quote_plus kv.1 +:+ "=" +:+ quote_plus kv.2) params).

Definition build_request (address : cell) : request :=
  let params := urlencode [("q", str address); ("format", "json"); ("limit", "1")] in
  {| url := NOMINATIM_URL +:+ "?" +:+ params;
     headers := [("User-Agent", "HarvardLibrariesMap/1.0")] |}.

(** [urlopen(req)] and [json.loads(response.read().decode())]: one
    request goes out, whatever comes back. *)
Definition urlopen_json (req : request) : M json :=
  fun tr =>
    (match net E (n_requests tr) req with
     | NetworkFailure => Raise URLError
     | BadStatus code => Raise (HTTPError code)
     | Malformed => Raise JSONDecodeError
     | Parsed data => Return data
     end, tr ++ [EvRequest req]).

(** The dict literal of lines 36-39: ["lat"] is evaluated first. *)
Definition first_coordinate (data : json) : result Coordinate :=
  try la <- (try e <- first_item data; try x <- member e "lat"; to_float x);
  try lo <- (try e <- first_item data; try x <- member e "lon"; to_float x);
  Return {| lat := la; lng := lo |}.

Definition geocode_address (address : cell) : M (option Coordinate) :=
  do data <- urlopen_json (build_request address);
  if truthy data then
    do c <- lift (first_coordinate data);
    ret (Some c)
  else ret None.

(** [print(text, end=e)]. *)
Definition print (text e : string) : M unit := emit (EvPrint (text +:+ e)).

Definition sleep (seconds : Z) : M unit := emit (EvSleep seconds).

(** [lib[name]]. *)
Definition getitem (lib : row) (name : string) : M cell :=
  match dict_get (fields lib) name with
  | Some c => ret c
  | None => raise (KeyError (SubStr name))
  end.

(** Lines 45-47. *)
Definition read_libraries : M (list row) :=
  match input E with
  | Unreadable => raise (OSError INPUT_CSV)
  | Lines ls => ret (dict_reader ls)
  end.

(** Lines 68-69: [open(OUTPUT_JSON, "w")] and [json.dump]. The keys of
    [coords] are strings or [None] and its values dicts of floats, which
    [json.dump] encodes whatever they are: only the file can fail, at the
    open or, once it is open and empty, at a write or at the close. *)
Definition dump (path : string) (coords : ResultMap) : M unit :=
  match output E with
  | Writes => emit (EvWrite path coords)
  | TruncatesThenFails => emit (EvTruncate path);; raise (OSError path)
  | CannotOpen => raise (OSError path)
  end.

Definition progress_line (n i : nat) (lib_id : cell) : string :=
  "  [" +:+ pretty (i + 1) +:+ "/" +:+ pretty n +:+ "] " +:+ str lib_id +:+ "...".

Definition ok_line (c : Coordinate) : string :=
  "OK (" +:+ fmt4f (lat c) +:+ ", " +:+ fmt4f (lng c) +:+ ")".

(** The body of the [for] loop, lines 52-66; [n] is [len(libraries)]. *)
Definition loop_body (n i : nat) (lib : row) (coords : ResultMap) : M ResultMap :=
  do lib_id <- getitem lib "Id";
  do address <- getitem lib "Address";
  print (progress_line n i lib_id) " ";;
  do result <- geocode_address address;
  do coords' <-
    match result with
    | Some c =>
        print (ok_line c) nl;;
        ret (dict_set coords lib_id c)
    | None =>
        print "FAILED - no results" nl;;
        ret coords
    end;
  (if (Z.of_nat i <? Z.of_nat n - 1)%Z then sleep 1 else ret tt);;
  ret coords'.

(** [for i, lib in enumerate(libraries)], from index [i] on. *)
Fixpoint loop (n i : nat) (libraries : list row) (coords : ResultMap) : M ResultMap :=
  match libraries with
  | [] => ret coords
  | lib :: rest =>
      do coords' <- loop_body n i lib coords;
      loop n (S i) rest coords'
  end.

Definition wrote_line (coords : ResultMap) : string :=
  nl +:+ "Wrote " +:+ pretty (length coords) +:+ " coordinates to " +:+ OUTPUT_JSON.

Definition warning_line (failed : Z) : string :=
  "Warning: " +:+ pretty failed +:+ " libraries failed to geocode".

Definition main : M unit :=
  do libraries <- read_libraries;
  print ("Geocoding " +:+ pretty (length libraries) +:+ " libraries...") nl;;
  do coords <- loop (length libraries) 0 libraries [];
  dump OUTPUT_JSON coords;;
  print (wrote_line coords) nl;;
  let failed := (Z.of_nat (length libraries) - Z.of_nat (length coords))%Z in
  if (failed =? 0)%Z then ret tt
  else print (warning_line failed) nl.

(** A run of the process starts with nothing done. *)
Definition run : result unit * trace := main [].

(** *** What one record comes to, without the effects *)

Definition row_id (lib : row) : option cell := dict_get (fields lib) "Id".
Definition row_address (lib : row) : option cell := dict_get (fields lib) "Address".

(** The value of [geocode_address address] when it makes request
    number [k]. *)
Definition answer (k : nat) (address : cell) : result (option Coordinate) :=
  fst (geocode_address address (replicate k (EvRequest (build_request address)))).

(** The lookup of record [i] of a run, the request number [i]. *)
Definition lookup_of_row (i : nat) (lib : row) : result (option Coordinate) :=
  match row_address lib with
  | Some a => answer i a
  | None => Raise (KeyError (SubStr "Address"))
  end.

(** The id and the lookup result of a record whose request is number
    [k], or the exception that its iteration ends with. *)
Definition row_outcome (k : nat) (lib : row) : result (cell * option Coordinate) :=
  match row_id lib, row_address lib with
  | None, _ => Raise (KeyError (SubStr "Id"))
  | Some _, None => Raise (KeyError (SubStr "Address"))
  | Some id, Some a => try r <- answer k a; Return (id, r)
  end.

Fixpoint row_outcomes (k : nat) (rows : list row)
  : list (result (cell * option Coordinate)) :=
  match rows with
  | [] => []
  | lib :: rest => row_outcome k lib :: row_outcomes (S k) rest
  end.

(** The line that ends the progress report of a record. *)
Definition result_line (r : option Coordinate) : string :=
  match r with
  | Some c => ok_line c
  | None => "FAILED - no results"
  end.

(** What iteration [i] does when its lookup returns [r]. *)
Definition iteration_events (n i : nat) (lib_id address : cell) (r : option Coordinate)
  : trace :=
  [EvPrint (progress_line n i lib_id +:+ " ");
   EvRequest (build_request address);
   EvPrint (result_line r +:+ nl)]
  ++ (if (Z.of_nat i <? Z.of_nat n - 1)%Z then [EvSleep 1] else []).

(** The first event of a run that could read its input. *)
Definition banner (libraries : list row) : event :=
  EvPrint (("Geocoding " +:+ pretty (length libraries) +:+ " libraries...") +:+ nl).

(** What a dump that fails leaves in the trace. *)
Definition failed_dump_events : trace :=
  match output E with
  | TruncatesThenFails => [EvTruncate OUTPUT_JSON]
  | Writes | CannotOpen => []
  end.

(** The events after the loop: the dump, the summary and, when the two
    lengths differ, the warning. *)
Definition closing_events (libraries : list row) (out : ResultMap) : trace :=
  let failed := (Z.of_nat (length libraries) - Z.of_nat (length out))%Z in
  [EvWrite OUTPUT_JSON out; EvPrint (wrote_line out +:+ nl)]
  ++ (if (failed =? 0)%Z then [] else [EvPrint (warning_line failed +:+ nl)]).

(** The events of the iteration of record [i], when it goes through. *)
Definition record_events (n i : nat) (lib : row) : trace :=
  match row_id lib, row_address lib with
  | Some id, Some a =>
      match answer i a with
      | Return r => iteration_events n i id a r
      | Raise _ => []
      end
  | _, _ => []
  end.

Fixpoint records_events (n i : nat) (rows : list row) : trace :=
  match rows with
  | [] => []
  | lib :: rest => record_events n i lib ++ records_events n (S i) rest
  end.
End Runner.

(** What the loop body does to [coords] with the id and the lookup result
    of its record. *)
Definition store (coords : ResultMap) (o : cell * option Coordinate) : ResultMap :=
  match o.2 with
  | Some c => dict_set coords o.1 c
  | None => coords
  end.

(** The ids that got a coordinate, in the order of the records. *)
Definition hits (outs : list (cell * option Coordinate)) : list cell :=
  omap (fun o => match o.2 with Some _ => Some o.1 | None => None end) outs.

(** [gate_pattern n]: [n] lookups with a delay between two consecutive
    ones. *)
Fixpoint gate_pattern (n : nat) : list gate :=
  match n with
  | 0 => []
  | S m => Lookup :: match m with 0 => [] | S _ => Delay :: gate_pattern m end
  end.

(** The ids of the records, in input order. *)
Definition ids (libraries : list row) : list cell :=
  omap row_id libraries.

(** The addresses of the records, in input order. *)
Definition addresses (libraries : list row) : list cell :=
  omap row_address libraries.


(** ** A runtime and environments for the examples *)

(** Only the numerals and addresses of the examples below are covered. *)
Definition sample_runtime : Runtime := {|
  float_of_str := fun s =>
    if String.eqb s "42.5" then Some 42.5%float
    else if String.eqb s "-71.125" then Some (-71.125)%float
    else if String.eqb s "40.25" then Some 40.25%float
    else None;
  float_of_int := fun _ => None;
  fmt4f := fun f =>
    if PrimFloat.eqb f 42.5 then "42.5000"
    else if PrimFloat.eqb f (-71.125) then "-71.1250"
    else if PrimFloat.eqb f 40.25 then "40.2500"
    else "?";
  quote_plus := fun s => s
|}.

Definition hit1 : reply :=
  Parsed (JArr [JObj [("lat", JStr "42.5"); ("lon", JStr "-71.125")]]).
Definition hit2 : reply :=
  Parsed (JArr [JObj [("lat", JStr "40.25"); ("lon", JStr "-71.125")]]).
Definition miss : reply := Parsed (JArr []).

Definition two_rows : list (list string) :=
  [["Id"; "Address"]; ["LIB01"; "Widener"]; []; ["LIB02"; "Lamont"]].

(** Twice the same id. *)
Definition dup_rows : list (list string) :=
  [["Id"; "Address"]; ["LIB01"; "Widener"]; ["LIB01"; "Lamont"]].

Definition first_then (r0 r : reply) : nat -> request -> reply :=
  fun k _ => match k with 0 => r0 | _ => r end.

Definition env_two : env :=
  {| input := Lines two_rows; net := first_then hit1 hit2; output := Writes |}.
Definition env_miss : env :=
  {| input := Lines two_rows; net := first_then hit1 miss; output := Writes |}.
Definition env_fail : env :=
  {| input := Lines two_rows; net := first_then hit1 NetworkFailure;
     output := Writes |}.
Definition env_dup : env :=
  {| input := Lines dup_rows; net := first_then hit1 hit2; output := Writes |}.
Definition env_dup_miss : env :=
  {| input := Lines dup_rows; net := first_then hit1 miss; output := Writes |}.
Definition env_empty : env :=
  {| input := Lines [["Id"; "Address"]; []]; net := first_then miss miss;
     output := Writes |}.
Definition env_unreadable : env :=
  {| input := Unreadable; net := first_then miss miss; output := Writes |}.

(** A header without ["Id"], with a record and without. *)
Definition env_no_id : env :=
  {| input := Lines [["Name"; "Address"]; ["Widener Library"; "Widener"]];
     net := first_then hit1 hit2; output := Writes |}.
Definition env_header_only : env :=
  {| input := Lines [["Name"; "Address"]];
     net := first_then hit1 hit2; output := Writes |}.

(** The output path cannot be opened. *)
Definition env_readonly : env :=
  {| input := Lines two_rows; net := first_then hit1 hit2; output := CannotOpen |}.


(** The service answers with an entry that has no field. *)
Definition env_no_fields : env :=
  {| input := Lines two_rows; net := first_then (Parsed (JArr [JObj []])) miss;
     output := Writes |}.

Definition c1 : Coordinate := {| lat := 42.5; lng := -71.125 |}.
Definition c2 : Coordinate := {| lat := 40.25; lng := -71.125 |}.

(** * Lists *)

Section list_facts.
Context {A B : Type}.
Implicit Types (f : A -> option B) (l : list A).

(** [omap] of a list is duplicate-free when no value comes from two
    positions. *)
Lemma NoDup_omap_lookup f l :
  (forall i j a b y,
     l !! i = Some a -> l !! j = Some b -> f a = Some y -> f b = Some y -> i = j) ->
  NoDup (omap f l).
Proof.
  induction l as [|a l IH]; intros Hinj; simpl; [apply NoDup_nil_2|].
  assert (NoDup (omap f l)) as Hnd.
  { apply IH. intros i j x b y Hi Hj Hx Hb.
    assert (S i = S j) by (by apply (Hinj (S i) (S j) x b y)). lia. }
  destruct (f a) as [y|] eqn:Hfa; [|done].
  apply NoDup_cons. split; [|done].
  intros (b & Hb & Hfb)%list_elem_of_omap.
  apply list_elem_of_lookup in Hb as [j Hj].
  by specialize (Hinj 0 (S j) a b y eq_refl Hj Hfa Hfb).
Qed.

(** The positions that [omap] drops and those it keeps make up the list. *)
Lemma length_omap_dropped f l (S : gset nat) :
  (forall j, j ∈ S <-> exists a, l !! j = Some a /\ f a = None) ->
  length (omap f l) + size S = length l.
Proof.
  revert S. induction l as [|a l IH] using rev_ind; intros S HS.
  - assert (S = ∅) as ->.
    { apply set_eq. intros j. rewrite HS. set_solver. }
    by rewrite size_empty.
  - assert (forall j, j ∈ S ∖ {[length l]} <-> exists b, l !! j = Some b /\ f b = None) as HS'.
    { intros j. rewrite elem_of_difference, elem_of_singleton, HS. split.
      - intros [(b & Hb & Hfb) Hne]. exists b. split; [|done].
        apply lookup_snoc_Some in Hb as [[_ ?]|[? _]]; done.
      - intros (b & Hb & Hfb). split.
        + exists b. split; [|done]. apply lookup_app_l_Some. done.
        + apply lookup_lt_Some in Hb. lia. }
    specialize (IH _ HS').
    rewrite omap_app, !length_app. simpl.
    destruct (f a) as [y|] eqn:Hfa; simpl.
    + assert (length l ∉ S) as Hnin.
      { rewrite HS. intros (b & Hb & Hfb).
        rewrite list_lookup_middle in Hb by done. naive_solver. }
      replace (S ∖ {[length l]}) with S in IH by set_solver. lia.
    + assert (length l ∈ S) as Hin.
      { apply HS. exists a. by rewrite list_lookup_middle. }
      assert (size S = size (S ∖ {[length l]}) + 1).
      { rewrite (union_difference_L {[length l]} S) at 1 by set_solver.
        rewrite size_union by set_solver. rewrite size_singleton. lia. }
      lia.
Qed.
End list_facts.

(** * Dicts *)

Section pydict_facts.
Context {K V : Type} `{EqDecision K}.
Implicit Types (d : list (K * V)) (k : K) (v : V).

Lemma dict_get_None d k : dict_get d k = None <-> k ∉ keys d.
Proof.
  unfold keys. induction d as [|[k' v'] d IH]; simpl.
  - split; [intros _; apply not_elem_of_nil | done].
  - rewrite not_elem_of_cons. case_decide; naive_solver.
Qed.

Lemma dict_get_is_Some d k : is_Some (dict_get d k) <-> k ∈ keys d.
Proof.
  rewrite <- not_eq_None_Some, dict_get_None.
  destruct (decide (k ∈ keys d)); naive_solver.
Qed.

Lemma dict_get_set_eq d k v : dict_get (dict_set d k v) k = Some v.
Proof.
  induction d as [|[k' v'] d IH]; simpl.
  - by rewrite decide_True.
  - case_decide; simpl; [by rewrite decide_True | by rewrite decide_False].
Qed.

Lemma dict_get_set_ne d k k' v :
  k <> k' -> dict_get (dict_set d k v) k' = dict_get d k'.
Proof.
  intros Hne. induction d as [|[k0 v0] d IH]; simpl.
  - by rewrite decide_False.
  - destruct (decide (k0 = k)) as [->|]; simpl.
    + by rewrite !decide_False.
    + by rewrite IH.
Qed.

Lemma dict_set_old d k v : k ∈ keys d -> keys (dict_set d k v) = keys d.
Proof.
  unfold keys. induction d as [|[k0 v0] d IH]; simpl.
  - by intros ?%elem_of_nil.
  - intros Hin. case_decide; simpl; [done|].
    f_equal. apply IH. apply elem_of_cons in Hin. naive_solver.
Qed.

Lemma dict_set_new d k v : k ∉ keys d -> dict_set d k v = d ++ [(k, v)].
Proof.
  unfold keys. induction d as [|[k0 v0] d IH]; simpl; [done|].
  intros Hnin. apply not_elem_of_cons in Hnin as [? ?].
  rewrite decide_False by done. by rewrite IH.
Qed.

Lemma keys_dict_set d k v :
  keys (dict_set d k v) = if decide (k ∈ keys d) then keys d else keys d ++ [k].
Proof.
  case_decide.
  - by apply dict_set_old.
  - rewrite dict_set_new by done. unfold keys. by rewrite fmap_app.
Qed.

Lemma elem_of_keys_dict_set d k v k' :
  k' ∈ keys (dict_set d k v) <-> k' = k \/ k' ∈ keys d.
Proof.
  rewrite keys_dict_set. case_decide; [naive_solver|].
  rewrite elem_of_app, list_elem_of_singleton. naive_solver.
Qed.

Lemma length_keys d : length (keys d) = length d.
Proof. unfold keys. by rewrite length_fmap. Qed.
End pydict_facts.

(** * The accumulator, on the list of what the records came to *)

Section store_facts.
Implicit Types (coords : ResultMap) (outs : list (cell * option Coordinate)).

Lemma keys_store coords id r :
  keys (store coords (id, r)) =
    match r with
    | Some _ => if decide (id ∈ keys coords) then keys coords else keys coords ++ [id]
    | None => keys coords
    end.
Proof. unfold store. destruct r; simpl; [apply keys_dict_set | done]. Qed.

(** Keys are appended, in the order of the records. *)
Lemma keys_foldl_store outs coords :
  exists ks, keys (foldl store coords outs) = keys coords ++ ks /\ ks `sublist_of` hits outs.
Proof.
  revert coords. induction outs as [|[id r] outs IH]; intros coords; simpl.
  - exists []. by rewrite app_nil_r.
  - destruct (IH (store coords (id, r))) as (ks & -> & Hsub).
    rewrite keys_store. destruct r as [c|]; cbn.
    + case_decide.
      * exists ks. split; [done | by apply sublist_cons].
      * exists (id :: ks). rewrite <- app_assoc. split; [done | by apply sublist_skip].
    + by exists ks.
Qed.

Lemma elem_of_keys_foldl_store outs coords k :
  k ∈ keys (foldl store coords outs) <-> k ∈ keys coords \/ k ∈ hits outs.
Proof.
  revert coords. induction outs as [|[id r] outs IH]; intros coords; simpl.
  - unfold hits. simpl. rewrite elem_of_nil. naive_solver.
  - rewrite IH, keys_store. destruct r as [c|]; cbn; [|done].
    rewrite elem_of_cons. case_decide; [|rewrite elem_of_app, list_elem_of_singleton];
      naive_solver.
Qed.

Lemma NoDup_keys_foldl_store outs coords :
  NoDup (keys coords) -> NoDup (keys (foldl store coords outs)).
Proof.
  revert coords. induction outs as [|[id r] outs IH]; intros coords Hnd; simpl; [done|].
  apply IH. rewrite keys_store. destruct r; [|done].
  case_decide; [done|]. apply NoDup_app. split_and!; [done| |apply NoDup_singleton].
  intros x Hx ->%list_elem_of_singleton. done.
Qed.

(** With no id hit twice, every hit adds an entry. *)
Lemma keys_foldl_store_fresh outs coords :
  NoDup (keys coords ++ hits outs) ->
  keys (foldl store coords outs) = keys coords ++ hits outs.
Proof.
  revert coords. induction outs as [|[id r] outs IH]; intros coords Hnd.
  - unfold hits. simpl. by rewrite app_nil_r.
  - change (foldl store coords ((id, r) :: outs))
      with (foldl store (store coords (id, r)) outs).
    destruct r as [c|].
    + change (hits ((id, Some c) :: outs)) with ([id] ++ hits outs) in *.
      assert (id ∉ keys coords) as Hnew.
      { apply NoDup_app in Hnd as (_ & Hd & _). intros Hin. apply (Hd _ Hin). left. }
      assert (keys (store coords (id, Some c)) = keys coords ++ [id]) as Hk.
      { by rewrite keys_store, decide_False. }
      rewrite IH; rewrite Hk, <- app_assoc; done.
    + by apply IH.
Qed.

Lemma dict_get_foldl_store_other outs coords k :
  k ∉ hits outs -> dict_get (foldl store coords outs) k = dict_get coords k.
Proof.
  revert coords. induction outs as [|[id r] outs IH]; intros coords Hk; simpl; [done|].
  destruct r as [c|]; cbn in *.
  - apply not_elem_of_cons in Hk as [? ?]. rewrite IH by done.
    unfold store. simpl. by apply dict_get_set_ne.
  - by apply IH.
Qed.

(** The entry of an id is the coordinate of its last hit. *)
Lemma dict_get_foldl_store_last pre post coords k c :
  k ∉ hits post ->
  dict_get (foldl store coords (pre ++ (k, Some c) :: post)) k = Some c.
Proof.
  intros Hk. rewrite foldl_app. simpl. rewrite dict_get_foldl_store_other by done.
  unfold store. simpl. apply dict_get_set_eq.
Qed.
End store_facts.

(** * The rows of the reader *)

Section reader_facts.
Implicit Types (fieldnames line : list string) (lib : row).

Lemma fst_zip_take {A B} (l : list A) (k : list B) : (zip l k).*1 = take (length k) l.
Proof.
  revert k. induction l as [|x l IH]; intros [|y k]; simpl; try done.
  by rewrite IH.
Qed.

Lemma elem_of_keys_foldl_zip fieldnames line (d : list (string * cell)) k :
  k ∈ keys (foldl (fun d kv => dict_set d kv.1 (Str kv.2)) d (zip fieldnames line))
  <-> k ∈ keys d \/ k ∈ (zip fieldnames line).*1.
Proof.
  revert d. induction (zip fieldnames line) as [|[x y] l IH]; intros d; simpl.
  - rewrite elem_of_nil. naive_solver.
  - rewrite IH, elem_of_keys_dict_set, elem_of_cons. naive_solver.
Qed.

Lemma elem_of_keys_foldl_rest (l : list string) (d : list (string * cell)) k :
  k ∈ keys (foldl (fun d k => dict_set d k NoneVal) d l) <-> k ∈ keys d \/ k ∈ l.
Proof.
  revert d. induction l as [|x l IH]; intros d; simpl.
  - rewrite elem_of_nil. naive_solver.
  - rewrite IH, elem_of_keys_dict_set, elem_of_cons. naive_solver.
Qed.

(** Every row has exactly the fields that the header names. *)
Lemma elem_of_keys_make_row fieldnames line k :
  k ∈ keys (fields (make_row fieldnames line)) <-> k ∈ fieldnames.
Proof.
  unfold make_row.
  destruct (length fieldnames <? length line) eqn:Hlong;
    [|destruct (length line <? length fieldnames) eqn:Hshort]; simpl.
  - apply Nat.ltb_lt in Hlong.
    rewrite elem_of_keys_foldl_zip, fst_zip_take, take_ge by lia.
    unfold keys. simpl. rewrite elem_of_nil. naive_solver.
  - rewrite elem_of_keys_foldl_rest, elem_of_keys_foldl_zip, fst_zip_take.
    unfold keys at 1. simpl. rewrite elem_of_nil.
    rewrite <- (take_drop (length line) fieldnames) at 3.
    rewrite elem_of_app. naive_solver.
  - apply Nat.ltb_ge in Hlong. apply Nat.ltb_ge in Hshort.
    rewrite elem_of_keys_foldl_zip, fst_zip_take, take_ge by lia.
    unfold keys. simpl. rewrite elem_of_nil. naive_solver.
Qed.

Lemma elem_of_dict_reader fieldnames body lib :
  lib ∈ dict_reader (fieldnames :: body) ->
  exists line, line ∈ body /\ line <> [] /\ lib = make_row fieldnames line.
Proof.
  simpl. rewrite list_elem_of_In, in_map_iff. intros (line & <- & Hin).
  apply filter_In in Hin as [Hin Hnb]. exists line.
  rewrite list_elem_of_In. split_and!; [done| |done]. by intros ->.
Qed.

Lemma dict_reader_nonblank fieldnames body line :
  line ∈ body -> line <> [] -> make_row fieldnames line ∈ dict_reader (fieldnames :: body).
Proof.
  intros Hin Hnb. simpl. rewrite list_elem_of_In. apply in_map.
  apply filter_In. rewrite <- list_elem_of_In. split; [done|]. by destruct line.
Qed.
End reader_facts.

(** * Properties *)

Section trace_facts.
Implicit Types (tr : trace).

Lemma requests_app tr1 tr2 : requests (tr1 ++ tr2) = requests tr1 ++ requests tr2.
Proof. apply omap_app. Qed.

Lemma writes_app tr1 tr2 : writes (tr1 ++ tr2) = writes tr1 ++ writes tr2.
Proof. apply omap_app. Qed.

Lemma gate_view_app tr1 tr2 : gate_view (tr1 ++ tr2) = gate_view tr1 ++ gate_view tr2.
Proof. apply omap_app. Qed.

Lemma n_requests_app tr1 tr2 : n_requests (tr1 ++ tr2) = n_requests tr1 + n_requests tr2.
Proof. unfold n_requests. by rewrite requests_app, length_app. Qed.

Lemma n_requests_replicate k req : n_requests (replicate k (EvRequest req)) = k.
Proof. induction k as [|k IH]; [done|]. unfold n_requests in *. simpl. by rewrite IH. Qed.
End trace_facts.

Section Facts.
Context `{RT : Runtime}.

(** ** One lookup, one iteration *)

Lemma geocode_address_answer (E : env) (address : cell) (tr : trace) :
  geocode_address E address tr =
    (answer E (n_requests tr) address, tr ++ [EvRequest (build_request address)]).
Proof.
  unfold answer, geocode_address, bind, urlopen_json.
  rewrite n_requests_replicate.
  destruct (net E (n_requests tr) (build_request address)); try done.
  destruct (truthy data); [|done].
  unfold lift. by destruct (first_coordinate data).
Qed.

Lemma answer_unfold (E : env) (k : nat) (address : cell) :
  answer E k address =
    match net E k (build_request address) with
    | NetworkFailure => Raise URLError
    | BadStatus code => Raise (HTTPError code)
    | Malformed => Raise JSONDecodeError
    | Parsed data =>
        if truthy data then try c <- first_coordinate data; Return (Some c)
        else Return None
    end.
Proof.
  unfold answer, geocode_address, bind, urlopen_json.
  rewrite n_requests_replicate.
  destruct (net E k (build_request address)); try done.
  destruct (truthy data); [|done].
  unfold lift. by destruct (first_coordinate data).
Qed.

(** The iteration of a record, case by case. *)
Lemma loop_body_run (E : env) (n i : nat) (lib : row) (coords : ResultMap) (tr : trace) :
  loop_body E n i lib coords tr =
    match row_id lib, row_address lib with
    | None, _ => (Raise (KeyError (SubStr "Id")), tr)
    | Some _, None => (Raise (KeyError (SubStr "Address")), tr)
    | Some id, Some a =>
        match answer E (n_requests tr) a with
        | Raise e =>
            (Raise e,
             tr ++ [EvPrint (progress_line n i id +:+ " "); EvRequest (build_request a)])
        | Return r => (Return (store coords (id, r)), tr ++ iteration_events n i id a r)
        end
    end.
Proof.
  unfold loop_body, bind, getitem, row_id, row_address, iteration_events.
  destruct (dict_get (fields lib) "Id") as [id|]; [|done].
  destruct (dict_get (fields lib) "Address") as [a|]; [|done].
  cbn -[pretty "+:+" geocode_address progress_line Z.of_nat Z.sub Z.ltb].
  rewrite geocode_address_answer, n_requests_app.
  change (n_requests [EvPrint _]) with 0. rewrite Nat.add_0_r.
  rewrite <- app_assoc. simpl.
  destruct (answer E (n_requests tr) a) as [[c|]|e]; [| |done].
  - cbn -[pretty "+:+" progress_line Z.of_nat Z.sub Z.ltb ok_line].
    destruct (Z.of_nat i <? Z.of_nat n - 1)%Z;
      cbn -[pretty "+:+" progress_line ok_line]; by rewrite <- !app_assoc.
  - cbn -[pretty "+:+" progress_line Z.of_nat Z.sub Z.ltb].
    destruct (Z.of_nat i <? Z.of_nat n - 1)%Z;
      cbn -[pretty "+:+" progress_line]; by rewrite <- !app_assoc.
Qed.

Lemma writes_iteration_events n i id a r : writes (iteration_events n i id a r) = [].
Proof. unfold iteration_events. by destruct (_ <? _)%Z. Qed.

Lemma n_requests_iteration_events n i id a r :
  n_requests (iteration_events n i id a r) = 1.
Proof. unfold iteration_events. by destruct (_ <? _)%Z. Qed.

Lemma gate_view_iteration_events n i id a r :
  gate_view (iteration_events n i id a r) =
    Lookup :: (if (Z.of_nat i <? Z.of_nat n - 1)%Z then [Delay] else []).
Proof. unfold iteration_events. by destruct (_ <? _)%Z. Qed.

(** A record whose iteration goes through has an id, an address and a
    lookup that returns. *)
Lemma row_outcome_Return (E : env) (k : nat) (lib : row) o :
  row_outcome E k lib = Return o <->
  exists a, row_id lib = Some o.1 /\ row_address lib = Some a /\ answer E k a = Return o.2.
Proof.
  unfold row_outcome. destruct o as [id r]. simpl.
  destruct (row_id lib) as [id'|]; [|naive_solver].
  destruct (row_address lib) as [a|]; [|naive_solver].
  destruct (answer E k a) as [r'|e] eqn:Ha; simpl; split.
  - intros [= -> ->]. eauto.
  - intros (a' & [= ->] & [= <-] & Ha'). congruence.
  - done.
  - intros (a' & _ & [= <-] & Ha'). congruence.
Qed.

(** ** The loop *)


(** When every record goes through, the loop returns the map that
    [store] builds from their outcomes, after one request per record. *)
Lemma loop_returns (E : env) (n : nat) (rows : list row) :
  forall i coords tr outs,
    row_outcomes E (n_requests tr) rows = Return <$> outs ->
    exists evs,
      loop E n i rows coords tr = (Return (foldl store coords outs), tr ++ evs)
      /\ writes evs = [] /\ n_requests evs = length rows.
Proof.
  induction rows as [|lib rows IH]; intros i coords tr outs Houts; simpl in *.
  - destruct outs; [|done]. exists []. by rewrite app_nil_r.
  - destruct outs as [|[id r] outs]; [done|]. simpl in Houts.
    injection Houts as Ho Houts.
    apply row_outcome_Return in Ho as (a & Hid & Ha & Hr). simpl in *.
    unfold bind. rewrite loop_body_run, Hid, Ha, Hr.
    destruct (IH (S i) (store coords (id, r)) (tr ++ iteration_events n i id a r) outs)
      as (evs & -> & Hw & Hn).
    { rewrite n_requests_app, n_requests_iteration_events.
      by replace (n_requests tr + 1) with (S (n_requests tr)) by lia. }
    exists (iteration_events n i id a r ++ evs).
    rewrite <- app_assoc, writes_app, writes_iteration_events, Hw.
    rewrite n_requests_app, n_requests_iteration_events, Hn. done.
Qed.

(** Conversely, the loop only returns when every record went through. *)
Lemma loop_Return_inv (E : env) (n : nat) (rows : list row) :
  forall i coords tr coords',
    (loop E n i rows coords tr).1 = Return coords' ->
    exists outs, row_outcomes E (n_requests tr) rows = Return <$> outs.
Proof.
  induction rows as [|lib rows IH]; intros i coords tr coords' Hret; simpl in *.
  - by exists [].
  - unfold bind in Hret. rewrite loop_body_run in Hret.
    destruct (row_id lib) as [id|] eqn:Hid; [|done].
    destruct (row_address lib) as [a|] eqn:Ha; [|done].
    destruct (answer E (n_requests tr) a) as [r|e] eqn:Hr; [|done].
    apply IH in Hret as [outs Houts].
    rewrite n_requests_app, n_requests_iteration_events in Houts.
    replace (n_requests tr + 1) with (S (n_requests tr)) in Houts by lia.
    exists ((id, r) :: outs). rewrite fmap_cons, <- Houts. f_equal.
    apply row_outcome_Return. simpl. eauto.
Qed.

(** The gate: a loop that returns has slept between its lookups only. *)
Lemma loop_gate (E : env) (n : nat) (rows : list row) :
  forall i coords tr coords',
    i + length rows = n ->
    (loop E n i rows coords tr).1 = Return coords' ->
    gate_view (loop E n i rows coords tr).2 = gate_view tr ++ gate_pattern (length rows).
Proof.
  induction rows as [|lib rows IH]; intros i coords tr coords' Hn Hret; simpl in *.
  - by rewrite app_nil_r.
  - unfold bind in *. rewrite loop_body_run in *.
    destruct (row_id lib) as [id|]; [|done].
    destruct (row_address lib) as [a|]; [|done].
    destruct (answer E (n_requests tr) a) as [r|e]; [|done].
    erewrite IH by (done || lia).
    rewrite gate_view_app, gate_view_iteration_events, <- app_assoc. f_equal.
    destruct rows as [|lib' rows]; simpl in *.
    + rewrite (proj2 (Z.ltb_ge _ _)) by lia. done.
    + rewrite (proj2 (Z.ltb_lt _ _)) by lia. done.
Qed.

Lemma delays_iteration_events n i id a r :
  delays (iteration_events n i id a r) =
    if (Z.of_nat i <? Z.of_nat n - 1)%Z then [1%Z] else [].
Proof. unfold iteration_events. by destruct (_ <? _)%Z. Qed.

Lemma loop_delays (E : env) (n : nat) (rows : list row) :
  forall i coords tr coords',
    i + length rows = n ->
    (loop E n i rows coords tr).1 = Return coords' ->
    delays (loop E n i rows coords tr).2 = delays tr ++ replicate (length rows - 1) 1%Z.
Proof.
  induction rows as [|lib rows IH]; intros i coords tr coords' Hn Hret; simpl in *.
  - by rewrite app_nil_r.
  - unfold bind in *. rewrite loop_body_run in *.
    destruct (row_id lib) as [id|]; [|done].
    destruct (row_address lib) as [a|]; [|done].
    destruct (answer E (n_requests tr) a) as [r|e]; [|done].
    erewrite IH by (done || lia).
    unfold delays at 1. rewrite omap_app. fold (delays tr).
    fold (delays (iteration_events n i id a r)).
    rewrite delays_iteration_events, <- app_assoc. f_equal.
    destruct rows as [|lib' rows]; simpl in *.
    + rewrite (proj2 (Z.ltb_ge _ _)) by lia. done.
    + rewrite (proj2 (Z.ltb_lt _ _)) by lia. by rewrite Nat.sub_0_r.
Qed.

(** The loop over a list is the loop over its front, then over the rest. *)
Lemma loop_app (E : env) (n : nat) (rows1 rows2 : list row) :
  forall i coords tr,
    loop E n i (rows1 ++ rows2) coords tr =
      match loop E n i rows1 coords tr with
      | (Return c, tr') => loop E n (i + length rows1) rows2 c tr'
      | (Raise e, tr') => (Raise e, tr')
      end.
Proof.
  induction rows1 as [|lib rows1 IH]; intros i coords tr; simpl.
  - by rewrite Nat.add_0_r.
  - unfold bind. destruct (loop_body E n i lib coords tr) as [[c|e] tr']; [|done].
    rewrite IH. by replace (S i + length rows1) with (i + S (length rows1)) by lia.
Qed.

(** ** The pattern of the gate *)

Lemma gate_pattern_lookup (n p : nat) :
  gate_pattern n !! p =
    if decide (p < 2 * n - 1) then Some (if Nat.even p then Lookup else Delay) else None.
Proof.
  revert p. induction n as [|m IH]; intros p.
  - rewrite decide_False by lia. done.
  - destruct p as [|[|p]]; destruct m as [|m'];
      try (case_decide; (done || lia)).
    change (gate_pattern (S (S m')) !! S (S p)) with (gate_pattern (S m') !! p).
    change (Nat.even (S (S p))) with (Nat.even p).
    rewrite IH. repeat case_decide; done || lia.
Qed.

Lemma gate_pattern_delay (n p : nat) :
  gate_pattern n !! p = Some Delay ->
  exists q, p = S q /\ gate_pattern n !! q = Some Lookup
            /\ gate_pattern n !! S p = Some Lookup.
Proof.
  rewrite gate_pattern_lookup. case_decide as Hp; [|done].
  destruct (Nat.even p) eqn:Hev; [done|]. intros _.
  destruct p as [|q]; [done|]. exists q.
  assert (Nat.even q = true) as Hq.
  { rewrite Nat.even_succ, <- Nat.negb_even in Hev. by destruct (Nat.even q). }
  assert (S q < 2 * n - 1 -> S (S q) < 2 * n - 1) as Hnext.
  { apply Nat.even_spec in Hq as [h ->]. lia. }
  split; [done|].
  rewrite !gate_pattern_lookup, !decide_True by lia.
  change (Nat.even (S (S q))) with (Nat.even q). by rewrite Hq.
Qed.

(** ** The outcomes of the records *)

Lemma row_outcome_lookup (E : env) (k : nat) (lib : row) o :
  row_outcome E k lib = Return o <->
  row_id lib = Some o.1 /\ lookup_of_row E k lib = Return o.2.
Proof.
  rewrite row_outcome_Return. unfold lookup_of_row. split.
  - intros (a & ? & -> & ?). done.
  - intros [? Hl]. destruct (row_address lib) as [a|]; [|done]. eauto.
Qed.

Lemma row_outcomes_Return (E : env) (rows : list row) :
  forall k,
    (forall j lib, rows !! j = Some lib -> exists o, row_outcome E (k + j) lib = Return o) ->
    exists outs, row_outcomes E k rows = Return <$> outs.
Proof.
  induction rows as [|lib rows IH]; intros k Hrows; simpl.
  - by exists [].
  - destruct (Hrows 0 lib eq_refl) as [o Ho]. rewrite Nat.add_0_r in Ho.
    destruct (IH (S k)) as [outs Houts].
    { intros j lib' Hj. destruct (Hrows (S j) lib' Hj) as [o' Ho'].
      exists o'. by replace (S k + j) with (k + S j) by lia. }
    exists (o :: outs). by rewrite fmap_cons, Ho, Houts.
Qed.

Lemma row_outcomes_inv (E : env) (rows : list row) :
  forall k outs,
    row_outcomes E k rows = Return <$> outs ->
    length outs = length rows /\
    forall j, (forall lib, rows !! j = Some lib ->
                 exists o, outs !! j = Some o /\ row_outcome E (k + j) lib = Return o)
              /\ (forall o, outs !! j = Some o ->
                 exists lib, rows !! j = Some lib /\ row_outcome E (k + j) lib = Return o).
Proof.
  induction rows as [|lib rows IH]; intros k [|o outs] Houts; simpl in *; try done.
  injection Houts as Ho Houts. destruct (IH _ _ Houts) as [Hlen Hlook].
  split; [by rewrite Hlen|].
  intros [|j]; simpl.
  - rewrite Nat.add_0_r. split; [intros ? [= <-]|intros ? [= <-]]; eauto.
  - replace (k + S j) with (S k + j) by lia. apply Hlook.
Qed.

Lemma row_outcomes_ids (E : env) (rows : list row) :
  forall k outs, row_outcomes E k rows = Return <$> outs -> outs.*1 = ids rows.
Proof.
  unfold ids.
  induction rows as [|lib rows IH]; intros k [|o outs] Houts; simpl in *; try done.
  injection Houts as Ho Houts.
  apply row_outcome_lookup in Ho as [-> _]. simpl. f_equal. by eapply IH.
Qed.

Lemma hits_sublist (outs : list (cell * option Coordinate)) : hits outs `sublist_of` outs.*1.
Proof.
  induction outs as [|[id [c|]] outs IH]; simpl; [done| |].
  - by apply sublist_skip.
  - by apply sublist_cons.
Qed.

Lemma hits_all (outs : list (cell * option Coordinate)) :
  (forall o, o ∈ outs -> is_Some o.2) -> hits outs = outs.*1.
Proof.
  induction outs as [|[id r] outs IH]; intros Hall; [done|].
  destruct (Hall (id, r)) as [c Hc]; [left|]. simpl in Hc. subst r.
  change (hits ((id, Some c) :: outs)) with (id :: hits outs).
  rewrite fmap_cons. f_equal. apply IH. intros o Ho. apply Hall. by right.
Qed.

(** ** The whole run *)

Lemma run_unfold (E : env) (ls : list (list string)) :
  input E = Lines ls ->
  run E =
    let libs := dict_reader ls in
    match loop E (length libs) 0 libs [] [banner libs] with
    | (Return out, tr) =>
        if out_writable E then (Return tt, tr ++ closing_events libs out)
        else (Raise (OSError OUTPUT_JSON), tr ++ failed_dump_events E)
    | (Raise e, tr) => (Raise e, tr)
    end.
Proof.
  intros Hin. unfold run, main, read_libraries, bind. rewrite Hin.
  cbn -[pretty "+:+" loop wrote_line warning_line OUTPUT_JSON Z.of_nat Z.sub Z.eqb].
  fold (banner (dict_reader ls)).
  destruct (loop _ _ _ _ _ _) as [[out|e] tr]; [|done].
  unfold dump, closing_events, out_writable, failed_dump_events.
  destruct (output E).
  - cbn -[pretty "+:+" wrote_line warning_line OUTPUT_JSON Z.of_nat Z.sub Z.eqb].
    destruct (_ =? _)%Z; unfold ret, print, emit;
      by rewrite <- !app_assoc.
  - done.
  - unfold raise. by rewrite app_nil_r.
Qed.

Lemma failed_dump_events_silent (E : env) :
  gate_view (failed_dump_events E) = [] /\ delays (failed_dump_events E) = []
  /\ requests (failed_dump_events E) = [] /\ writes (failed_dump_events E) = [].
Proof. unfold failed_dump_events. by destruct (output E). Qed.

(** A run whose records all go through dumps what [store] builds from
    their outcomes and prints the summary. *)
Lemma run_returns (E : env) (ls : list (list string)) outs :
  input E = Lines ls ->
  out_writable E = true ->
  row_outcomes E 0 (dict_reader ls) = Return <$> outs ->
  exists evs,
    run E = (Return tt,
             banner (dict_reader ls) :: evs
               ++ closing_events (dict_reader ls) (foldl store [] outs))
    /\ writes evs = [] /\ n_requests evs = length (dict_reader ls).
Proof.
  intros Hin Hw Houts. rewrite (run_unfold E ls Hin). simpl.
  destruct (loop_returns E (length (dict_reader ls)) (dict_reader ls) 0 []
              [banner (dict_reader ls)] outs Houts) as (evs & -> & Hwr & Hn).
  rewrite Hw. exists evs. done.
Qed.

Lemma writes_closing_events (libs : list row) (out : ResultMap) :
  writes (closing_events libs out) = [(OUTPUT_JSON, out)].
Proof. unfold closing_events. by destruct (_ =? _)%Z. Qed.

(** The outcomes of the records of a run in which every record has an id
    and every lookup returns. *)
Lemma outcomes_of_lookups (E : env) (libs : list row) :
  (forall lib, lib ∈ libs -> is_Some (row_id lib)) ->
  (forall i lib, libs !! i = Some lib -> exists r, lookup_of_row E i lib = Return r) ->
  exists outs,
    row_outcomes E 0 libs = Return <$> outs /\
    length outs = length libs /\
    outs.*1 = ids libs /\
    forall j o, outs !! j = Some o ->
      exists lib, libs !! j = Some lib /\ row_id lib = Some o.1
                  /\ lookup_of_row E j lib = Return o.2.
Proof.
  intros Hids Hlook.
  destruct (row_outcomes_Return E libs 0) as [outs Houts].
  { intros j lib Hj. destruct (Hids lib) as [id Hid]; [by eapply list_elem_of_lookup_2|].
    destruct (Hlook j lib Hj) as [r Hr]. exists (id, r).
    by apply row_outcome_lookup. }
  exists outs. destruct (row_outcomes_inv E libs 0 outs Houts) as [Hlen Hinv].
  split_and!; [done|done|by eapply row_outcomes_ids|].
  intros j o Ho. destruct (proj2 (Hinv j) o Ho) as (lib & Hj & Hout).
  apply row_outcome_lookup in Hout as [? ?]. eauto.
Qed.

(** ** Runs that fail *)

(** The three failures of the transport, as exceptions of the lookup. *)
Lemma lookup_failures (E : env) (k : nat) (address : cell) :
  (net E k (build_request address) = NetworkFailure -> answer E k address = Raise URLError)
  /\ (forall code, net E k (build_request address) = BadStatus code ->
        answer E k address = Raise (HTTPError code))
  /\ (net E k (build_request address) = Malformed ->
        answer E k address = Raise JSONDecodeError).
Proof. rewrite answer_unfold. split_and!; [intros ->|intros ? ->|intros ->]; done. Qed.

(** A first record without the id or the address ends the loop at once. *)
Lemma loop_missing_column (E : env) (n i : nat) (fieldnames line : list string)
    (rest : list row) (coords : ResultMap) (tr : trace) :
  ("Id" ∉ fieldnames) \/ ("Address" ∉ fieldnames) ->
  exists name,
    (name = "Id" \/ name = "Address") /\ (name ∉ fieldnames) /\
    loop E n i (make_row fieldnames line :: rest) coords tr
      = (Raise (KeyError (SubStr name)), tr).
Proof.
  intros Hlack. cbn [loop]. unfold bind. rewrite loop_body_run.
  destruct (row_id (make_row fieldnames line)) as [id|] eqn:Hid.
  - assert ("Id" ∈ fieldnames) as HId.
    { apply (elem_of_keys_make_row fieldnames line), dict_get_is_Some.
      unfold row_id in Hid. by rewrite Hid. }
    destruct Hlack as [?|Hlack]; [done|].
    assert (row_address (make_row fieldnames line) = None) as ->.
    { apply dict_get_None. by rewrite elem_of_keys_make_row. }
    exists "Address". split_and!; [by right|done|done].
  - exists "Id". split_and!; [by left| |done].
    apply dict_get_None in Hid. by rewrite elem_of_keys_make_row in Hid.
Qed.

Lemma touched_app (tr1 tr2 : trace) : touched (tr1 ++ tr2) = touched tr1 ++ touched tr2.
Proof. apply omap_app. Qed.

(** The loop changes no file, whatever its end. *)
Lemma loop_touched (E : env) (n : nat) (rows : list row) :
  forall i coords tr, touched (loop E n i rows coords tr).2 = touched tr.
Proof.
  induction rows as [|lib rows IH]; intros i coords tr; [done|].
  cbn [loop]. unfold bind. rewrite loop_body_run.
  destruct (row_id lib) as [id|]; [|done].
  destruct (row_address lib) as [a|]; [|done].
  destruct (answer E (n_requests tr) a) as [r|e]; cbn [snd].
  - rewrite IH, touched_app. unfold iteration_events.
    destruct (_ <? _)%Z; simpl; by rewrite app_nil_r.
  - rewrite touched_app. simpl. by rewrite app_nil_r.
Qed.


(** ** The gate in any run *)



(** C1 (as amended): when every record has an id and every lookup
    returns a coordinate, the run ends normally and dumps one map, whose
    keys are exactly the ids of the input, each once; when the ids of the
    N records are pairwise distinct, the keys are the ids in input order
    and the map has exactly N entries. *)
Theorem all_found_output (E : env) (ls : list (list string)) :
  input E = Lines ls ->
  out_writable E = true ->
  (forall lib, lib ∈ dict_reader ls -> is_Some (row_id lib)) ->
  (forall i lib, dict_reader ls !! i = Some lib ->
     exists c, lookup_of_row E i lib = Return (Some c)) ->
  exists out,
    (run E).1 = Return tt /\
    writes (run E).2 = [(OUTPUT_JSON, out)] /\
    NoDup (keys out) /\
    (forall id, id ∈ keys out <-> id ∈ ids (dict_reader ls)) /\
    (NoDup (ids (dict_reader ls)) ->
       keys out = ids (dict_reader ls) /\ length out = length (dict_reader ls)).
Proof.
  intros Hin Hw Hids Hall. set (libs := dict_reader ls) in *.
  destruct (outcomes_of_lookups E libs Hids) as (outs & Houts & Hlen & Hfst & Hinv).
  { intros i lib Hi. destruct (Hall i lib Hi) as [c Hc]. eauto. }
  destruct (run_returns E ls outs Hin Hw Houts) as (evs & Hrun & Hwr & _).
  fold libs in Hrun.
  assert (hits outs = ids libs) as Hhits.
  { rewrite <- Hfst. apply hits_all. intros o [j Hj]%list_elem_of_lookup.
    destruct (Hinv j o Hj) as (lib & Hlib & _ & Hr).
    destruct (Hall j lib Hlib) as [c Hc]. rewrite Hc in Hr. injection Hr as <-. eauto. }
  exists (foldl store [] outs). rewrite Hrun. simpl.
  split_and!.
  - done.
  - change (banner libs :: evs ++ ?l) with ([banner libs] ++ evs ++ l).
    by rewrite !writes_app, Hwr, writes_closing_events.
  - apply NoDup_keys_foldl_store. apply NoDup_nil_2.
  - intros id. rewrite elem_of_keys_foldl_store, Hhits.
    unfold keys at 1. simpl. rewrite elem_of_nil. naive_solver.
  - intros Hnd.
    assert (keys (foldl store [] outs) = ids libs) as Hkeys.
    { rewrite keys_foldl_store_fresh; rewrite Hhits; done. }
    split; [done|].
    by rewrite <- length_keys, Hkeys, <- Hfst, length_fmap.
Qed.

(** C2 (as amended): when the lookup returns [None] for exactly the
    records of [S] and a coordinate for the others, and the records that
    get a coordinate have pairwise distinct ids, the map that is dumped
    has N - |S| entries; the summary is followed by the warning exactly when
    S is not empty, and the warning reports |S|. *)
Theorem misses_output (E : env) (ls : list (list string)) (S : gset nat) :
  input E = Lines ls ->
  out_writable E = true ->
  (forall lib, lib ∈ dict_reader ls -> is_Some (row_id lib)) ->
  (forall i, i ∈ S -> i < length (dict_reader ls)) ->
  (forall i lib, dict_reader ls !! i = Some lib ->
     if decide (i ∈ S) then lookup_of_row E i lib = Return None
     else exists c, lookup_of_row E i lib = Return (Some c)) ->
  (forall i j li lj,
     dict_reader ls !! i = Some li -> dict_reader ls !! j = Some lj ->
     i ∉ S -> j ∉ S -> row_id li = row_id lj -> i = j) ->
  exists out evs,
    run E =
      (Return tt,
       evs ++ [EvWrite OUTPUT_JSON out; EvPrint (wrote_line out +:+ nl)]
           ++ (if decide (size S = 0) then []
               else [EvPrint (warning_line (Z.of_nat (size S)) +:+ nl)]))
    /\ writes evs = []
    /\ length out = length (dict_reader ls) - size S.
Proof.
  intros Hin Hw Hids HS Hlook Hdist. set (libs := dict_reader ls) in *.
  destruct (outcomes_of_lookups E libs Hids) as (outs & Houts & Hlen & Hfst & Hinv).
  { intros i lib Hi. specialize (Hlook i lib Hi).
    case_decide; [eauto|]. destruct Hlook as [c Hc]. eauto. }
  destruct (run_returns E ls outs Hin Hw Houts) as (evs & Hrun & Hwr & _).
  fold libs in Hrun.
  set (f := fun o : cell * option Coordinate =>
              match o.2 with Some _ => Some o.1 | None => None end).
  assert (forall o, f o = None <-> o.2 = None) as Hf.
  { intros [id [c|]]; unfold f; naive_solver. }
  assert (forall j o, outs !! j = Some o -> (j ∈ S <-> o.2 = None)) as Hmiss.
  { intros j o Ho. destruct (Hinv j o Ho) as (lib & Hlib & _ & Hr).
    specialize (Hlook j lib Hlib). case_decide.
    - rewrite Hlook in Hr. injection Hr as <-. done.
    - destruct Hlook as [c Hc]. rewrite Hc in Hr. injection Hr as <-. done. }
  assert (length (hits outs) + size S = length libs) as Hcount.
  { rewrite <- Hlen. apply length_omap_dropped. intros j. split.
    - intros Hj. destruct (lookup_lt_is_Some_2 outs j) as [o Ho].
      { rewrite Hlen. by apply HS. }
      exists o. split; [done|]. apply Hf. by apply (Hmiss j o Ho).
    - intros (o & Ho & Hfo). apply (Hmiss j o Ho). by apply Hf. }
  assert (NoDup (hits outs)) as Hnd.
  { apply NoDup_omap_lookup. intros i j a b y Hi Hj Ha Hb.
    destruct (Hinv i a Hi) as (li & Hli & Hida & _).
    destruct (Hinv j b Hj) as (lj & Hlj & Hidb & _).
    apply (Hdist i j li lj Hli Hlj).
    - rewrite (Hmiss i a Hi). by destruct a as [? [?|]].
    - rewrite (Hmiss j b Hj). by destruct b as [? [?|]].
    - rewrite Hida, Hidb. destruct a as [? [?|]], b as [? [?|]]; naive_solver. }
  assert (length (foldl store [] outs) = length libs - size S) as Hout.
  { rewrite <- length_keys, keys_foldl_store_fresh by done. simpl. lia. }
  exists (foldl store [] outs), (banner libs :: evs).
  split_and!; [|done|done].
  rewrite Hrun. f_equal. simpl. f_equal. f_equal.
  unfold closing_events. rewrite Hout.
  replace (Z.of_nat (length libs) - Z.of_nat (length libs - size S))%Z
    with (Z.of_nat (size S)) by lia.
  case_decide as Hz.
  - rewrite Hz. done.
  - rewrite (proj2 (Z.eqb_neq _ _)) by lia. done.
Qed.

(** C3: when the lookup of record [k] raises, the records before it
    having gone through, the run ends with that exception right after
    the request of record [k], and nothing has been written: no map is
    dumped and the output file is not touched. *)
Theorem lookup_error_aborts (E : env) (ls : list (list string))
    (k : nat) (lib : row) (a : cell) (e : exn) :
  input E = Lines ls ->
  dict_reader ls !! k = Some lib ->
  (forall j lib', j < k -> dict_reader ls !! j = Some lib' ->
     exists o, row_outcome E j lib' = Return o) ->
  is_Some (row_id lib) ->
  row_address lib = Some a ->
  answer E k a = Raise e ->
  (run E).1 = Raise e /\
  writes (run E).2 = [] /\
  n_requests (run E).2 = S k /\
  last (run E).2 = Some (EvRequest (build_request a)) /\
  touched (run E).2 = [].
Proof.
  intros Hin Hk Hbefore [id Hid] Ha He. set (libs := dict_reader ls) in *.
  rewrite (run_unfold E ls Hin). cbv zeta. fold libs.
  rewrite <- (take_drop_middle libs k lib Hk), loop_app.
  destruct (row_outcomes_Return E (take k libs) 0) as [outs Houts].
  { intros j lib' Hj. apply lookup_take_Some in Hj as [Hj Hlt]. by apply Hbefore. }
  pose proof (loop_touched E (length (take k libs ++ lib :: drop (S k) libs))
                (take k libs) 0 [] [banner (take k libs ++ lib :: drop (S k) libs)])
    as Htouch.
  destruct (loop_returns E (length (take k libs ++ lib :: drop (S k) libs))
              (take k libs) 0 [] [banner (take k libs ++ lib :: drop (S k) libs)]
              outs Houts) as (evs & Hloop & Hwr & Hn).
  rewrite Hloop in Htouch |- *. cbn [snd] in Htouch.
  assert (length (take k libs) = k) as Hlen.
  { apply length_take_le. apply lookup_lt_Some in Hk. lia. }
  rewrite Hlen in Hn.
  set (b := banner _) in *. set (N := length (_ ++ _)) in *.
  assert (n_requests ([b] ++ evs) = k) as Hreq.
  { by rewrite n_requests_app, Hn. }
  cbn [loop]. unfold bind. rewrite loop_body_run, Hid, Ha, Hreq, He.
  cbn [fst snd]. split_and!.
  - done.
  - by rewrite !writes_app, Hwr.
  - rewrite n_requests_app, Hreq. change (n_requests [EvPrint _; EvRequest _]) with 1.
    lia.
  - change [EvPrint ?x; EvRequest ?r] with ([EvPrint x] ++ [EvRequest r]).
    rewrite app_assoc. apply last_snoc.
  - by rewrite touched_app, Htouch.
Qed.

(** C4: when the service answers with an array, [geocode_address]
    returns [None], raising nothing, if the array is empty, and the
    coordinate read from the ["lat"] and ["lon"] of the first entry otherwise. *)
Theorem geocode_address_first_entry (E : env) (address : cell) (tr : trace)
    (items : list json) :
  net E (n_requests tr) (build_request address) = Parsed (JArr items) ->
  (items = [] -> (geocode_address E address tr).1 = Return None) /\
  (forall entry rest members vlat vlon x y,
     items = entry :: rest ->
     entry = JObj members ->
     dict_get members "lat" = Some vlat -> to_float vlat = Return x ->
     dict_get members "lon" = Some vlon -> to_float vlon = Return y ->
     (geocode_address E address tr).1 = Return (Some {| lat := x; lng := y |})).
Proof.
  intros Hnet. rewrite geocode_address_answer, answer_unfold, Hnet. simpl. split.
  - by intros ->.
  - intros entry rest members vlat vlon x y -> -> Hlat Hx Hlon Hy. simpl.
    unfold first_coordinate. simpl. by rewrite Hlat, Hlon; simpl; rewrite Hx, Hy.
Qed.

(** C5: when the N >= 1 records of the input all go through, the run
    makes N requests and sleeps N - 1 times, one second each time; among
    the requests and sleeps of the run, every sleep comes right after a
    request and right before the next one. *)
Theorem delays_between_lookups (E : env) (ls : list (list string)) :
  input E = Lines ls ->
  1 <= length (dict_reader ls) ->
  (forall lib, lib ∈ dict_reader ls -> is_Some (row_id lib)) ->
  (forall i lib, dict_reader ls !! i = Some lib ->
     exists r, lookup_of_row E i lib = Return r) ->
  n_requests (run E).2 = length (dict_reader ls) /\
  delays (run E).2 = replicate (length (dict_reader ls) - 1) 1%Z /\
  gate_view (run E).2 = gate_pattern (length (dict_reader ls)) /\
  (forall p, gate_view (run E).2 !! p = Some Delay ->
     exists q, p = S q /\ gate_view (run E).2 !! q = Some Lookup
               /\ gate_view (run E).2 !! S p = Some Lookup).
Proof.
  intros Hin HN Hids Hlook. set (libs := dict_reader ls) in *.
  destruct (outcomes_of_lookups E libs Hids Hlook) as (outs & Houts & _).
  destruct (loop_returns E (length libs) libs 0 [] [banner libs] outs Houts)
    as (evs & Hloop & Hwr & Hn).
  pose proof (loop_gate E (length libs) libs 0 [] [banner libs]
                (foldl store [] outs) eq_refl) as Hgate.
  pose proof (loop_delays E (length libs) libs 0 [] [banner libs]
                (foldl store [] outs) eq_refl) as Hdelays.
  rewrite Hloop in Hgate, Hdelays. cbn [fst snd] in Hgate, Hdelays.
  specialize (Hgate eq_refl). specialize (Hdelays eq_refl).
  change (gate_view [banner libs]) with (@nil gate) in Hgate.
  change (delays [banner libs]) with (@nil Z) in Hdelays.
  rewrite app_nil_l in Hgate, Hdelays.
  assert (exists closing, (run E).2 = ([banner libs] ++ evs) ++ closing
            /\ gate_view closing = [] /\ delays closing = []
            /\ n_requests closing = 0) as (closing & -> & Hcg & Hcd & Hcn).
  { rewrite (run_unfold E ls Hin). cbv zeta. fold libs. rewrite Hloop.
    destruct (out_writable E); simpl.
    - eexists. split; [done|]. unfold closing_events. by destruct (_ =? _)%Z.
    - eexists. split; [done|]. unfold failed_dump_events. by destruct (output E). }
  assert (gate_view (([banner libs] ++ evs) ++ closing) = gate_pattern (length libs)) as Hg.
  { by rewrite gate_view_app, Hcg, app_nil_r, Hgate. }
  split_and!.
  - rewrite !n_requests_app, Hn, Hcn. change (n_requests [banner _]) with 0. lia.
  - unfold delays at 1. rewrite omap_app. fold (delays closing).
    fold (delays ([banner libs] ++ evs)). by rewrite Hcd, app_nil_r, Hdelays.
  - done.
  - rewrite Hg. apply gate_pattern_delay.
Qed.

(** One iteration is the loop over one record. *)
Lemma loop_singleton (E : env) (n i : nat) (lib : row) (coords : ResultMap) (tr : trace) :
  loop E n i [lib] coords tr = loop_body E n i lib coords tr.
Proof. simpl. unfold bind, ret. by destruct (loop_body _ _ _ _ _ _) as [[c|e] tr']. Qed.

Lemma outcomes_index (E : env) (rows : list row) (k : nat)
    (outs : list (cell * option Coordinate)) :
  row_outcomes E k rows = Return <$> outs ->
  length outs = length rows /\
  forall j o, outs !! j = Some o ->
    exists lib, rows !! j = Some lib /\ row_id lib = Some o.1
                /\ lookup_of_row E (k + j) lib = Return o.2.
Proof.
  intros Houts. destruct (row_outcomes_inv E rows k outs Houts) as [Hlen Hinv].
  split; [done|]. intros j o Ho.
  destruct (proj2 (Hinv j) o Ho) as (lib & Hj & Hout).
  apply row_outcome_lookup in Hout as [? ?]. eauto.
Qed.

(** C6 (as amended): over any stretch of the loop (one iteration, or the
    whole loop) that returns, the keys of [coords] stay where they are and
    the new keys come after them in the order of the records; keys stay
    unique; the entry of an id keeps its value when no record of the stretch
    has the id, and also when those that have it all get [None]; and when a
    record of the stretch with the id gets a coordinate, the entry of the id
    is, after the stretch, the coordinate of the last such record: the last
    write wins. *)
Theorem coords_grow (E : env) (n i : nat) (rows : list row)
    (coords coords' : ResultMap) (tr : trace) :
  (loop E n i rows coords tr).1 = Return coords' ->
  (exists ks, keys coords' = keys coords ++ ks /\ ks `sublist_of` ids rows) /\
  (forall id, id ∉ ids rows -> dict_get coords' id = dict_get coords id) /\
  (NoDup (keys coords) -> NoDup (keys coords')) /\
  (forall id,
     (forall j lib, rows !! j = Some lib -> row_id lib = Some id ->
        lookup_of_row E (n_requests tr + j) lib = Return None) ->
     dict_get coords' id = dict_get coords id) /\
  (forall j lib id c,
     rows !! j = Some lib -> row_id lib = Some id ->
     lookup_of_row E (n_requests tr + j) lib = Return (Some c) ->
     (forall j' lib', j < j' -> rows !! j' = Some lib' -> row_id lib' = Some id ->
        lookup_of_row E (n_requests tr + j') lib' = Return None) ->
     dict_get coords' id = Some c).
Proof.
  intros Hret. destruct (loop_Return_inv E n rows i coords tr coords' Hret) as [outs Houts].
  destruct (loop_returns E n rows i coords tr outs Houts) as (evs & Hloop & _).
  rewrite Hloop in Hret. injection Hret as <-.
  destruct (outcomes_index E rows _ outs Houts) as [Hlen Hinv].
  assert (hits outs `sublist_of` ids rows) as Hsub.
  { rewrite <- (row_outcomes_ids E rows _ outs Houts). apply hits_sublist. }
  split_and!.
  - destruct (keys_foldl_store outs coords) as (ks & Hks & Hsub').
    exists ks. split; [done|]. by etrans.
  - intros id Hid. apply dict_get_foldl_store_other.
    intros Hin. apply Hid. by eapply elem_of_sublist.
  - apply NoDup_keys_foldl_store.
  - intros id Hmiss. apply dict_get_foldl_store_other.
    intros (o & [j Hj]%list_elem_of_lookup & Hf)%list_elem_of_omap.
    destruct (Hinv j o Hj) as (lib & Hlib & Hid & Hr).
    destruct o as [id' [c|]]; [|done]. injection Hf as ->.
    rewrite (Hmiss j lib Hlib Hid) in Hr. done.
  - intros j lib id c Hj Hid Hc Hlater.
    destruct (lookup_lt_is_Some_2 outs j) as [o Ho].
    { rewrite Hlen. by eapply lookup_lt_Some. }
    destruct (Hinv j o Ho) as (lib0 & Hlib0 & Ho1 & Ho2).
    assert (lib0 = lib) as -> by congruence.
    assert (o = (id, Some c)) as ->.
    { destruct o as [id' r']. simpl in *. congruence. }
    rewrite <- (take_drop_middle outs j _ Ho).
    apply dict_get_foldl_store_last.
    intros (o' & [j' Hj']%list_elem_of_lookup & Hf)%list_elem_of_omap.
    rewrite lookup_drop in Hj'.
    destruct (Hinv _ o' Hj') as (lib' & Hlib' & Hid' & Hr').
    destruct o' as [id' [c'|]]; [|done]. injection Hf as ->.
    assert (lookup_of_row E (n_requests tr + (S j + j')) lib' = Return None) as Hnone.
    { apply Hlater; [lia|done|done]. }
    rewrite Hnone in Hr'. done.
Qed.

(** C7 (as amended): a missing or unreadable input file makes the run
    fail with the I/O error, before anything else happens; a header without
    ["Id"] or ["Address"] makes the run fail with the [KeyError] of the
    missing column, at the first record, before any request and any write,
    provided the file has a record at all. *)
Theorem reader_failures (E : env) :
  (input E = Unreadable -> run E = (Raise (OSError INPUT_CSV), [])) /\
  (forall fieldnames body line,
     input E = Lines (fieldnames :: body) ->
     ("Id" ∉ fieldnames) \/ ("Address" ∉ fieldnames) ->
     line ∈ body -> line <> [] ->
     exists name,
       (name = "Id" \/ name = "Address") /\ (name ∉ fieldnames) /\
       run E = (Raise (KeyError (SubStr name)),
                [banner (dict_reader (fieldnames :: body))])).
Proof.
  split.
  - intros Hin. unfold run, main, read_libraries, bind. by rewrite Hin.
  - intros fieldnames body line Hin Hlack Hline Hnb.
    rewrite (run_unfold E _ Hin). cbv zeta.
    pose proof (dict_reader_nonblank fieldnames body line Hline Hnb) as Hrow.
    destruct (dict_reader (fieldnames :: body)) as [|lib rest] eqn:Hlibs.
    { by apply elem_of_nil in Hrow. }
    assert (exists line0, lib = make_row fieldnames line0) as [line0 ->].
    { destruct (elem_of_dict_reader fieldnames body lib) as (l & _ & _ & ?); [|eauto].
      rewrite Hlibs. left. }
    destruct (loop_missing_column E (length (make_row fieldnames line0 :: rest)) 0
                fieldnames line0 rest [] [banner (make_row fieldnames line0 :: rest)] Hlack)
      as (name & Hname & Hnin & ->).
    by exists name.
Qed.

(** C10: when every record goes through, record [i] got the coordinate
    [c] and every later record with the same id got [None], the map that
    is dumped has [c] for that id: a miss neither removes nor replaces the
    coordinate, only a later hit of the same id would. *)
Theorem miss_keeps_entry (E : env) (ls : list (list string))
    (i : nat) (lib : row) (id : cell) (c : Coordinate) :
  input E = Lines ls ->
  out_writable E = true ->
  (forall lib', lib' ∈ dict_reader ls -> is_Some (row_id lib')) ->
  (forall j lib', dict_reader ls !! j = Some lib' ->
     exists r, lookup_of_row E j lib' = Return r) ->
  dict_reader ls !! i = Some lib ->
  row_id lib = Some id ->
  lookup_of_row E i lib = Return (Some c) ->
  (forall j lib', i < j -> dict_reader ls !! j = Some lib' ->
     row_id lib' = Some id -> lookup_of_row E j lib' = Return None) ->
  exists out, writes (run E).2 = [(OUTPUT_JSON, out)] /\ dict_get out id = Some c.
Proof.
  intros Hin Hw Hids Hlook Hi Hid Hc Hlater. set (libs := dict_reader ls) in *.
  destruct (outcomes_of_lookups E libs Hids Hlook) as (outs & Houts & Hlen & _ & Hinv).
  destruct (run_returns E ls outs Hin Hw Houts) as (evs & Hrun & Hwr & _).
  fold libs in Hrun.
  exists (foldl store [] outs). split.
  { rewrite Hrun. simpl.
    change (banner libs :: evs ++ ?l) with ([banner libs] ++ evs ++ l).
    by rewrite !writes_app, Hwr, writes_closing_events. }
  destruct (lookup_lt_is_Some_2 outs i) as [o Ho].
  { rewrite Hlen. by eapply lookup_lt_Some. }
  destruct (Hinv i o Ho) as (lib0 & Hlib0 & Ho1 & Ho2).
  assert (lib0 = lib) as -> by congruence.
  assert (o = (id, Some c)) as ->.
  { destruct o as [id' r']. simpl in *. congruence. }
  rewrite <- (take_drop_middle outs i _ Ho).
  apply dict_get_foldl_store_last.
  intros (o' & Ho' & Hf)%list_elem_of_omap.
  apply list_elem_of_lookup in Ho' as [j Hj]. rewrite lookup_drop in Hj.
  destruct (Hinv _ o' Hj) as (lib' & Hlib' & Hid' & Hr').
  destruct o' as [id' [c'|]]; [|done]. injection Hf as ->.
  assert (lookup_of_row E (S i + j) lib' = Return None) as Hnone.
  { apply Hlater; [lia|done|done]. }
  rewrite Hnone in Hr'. done.
Qed.

(** C8: on an input with no record (and an output path that can be
    written) the run ends normally; all it does is print the banner, dump
    the empty map and print the summary for 0 coordinates: no lookup, no
    delay, no warning line. *)
Theorem empty_input_run (E : env) (ls : list (list string)) :
  input E = Lines ls ->
  dict_reader ls = [] ->
  out_writable E = true ->
  run E =
    (Return tt,
     [EvPrint ("Geocoding 0 libraries..." +:+ nl);
      EvWrite OUTPUT_JSON [];
      EvPrint (nl +:+ "Wrote 0 coordinates to public/library-coords.json" +:+ nl)]).
Proof.
  intros Hin Hrows Hw.
  assert (output E = Writes) as Hout.
  { unfold out_writable in Hw. by destruct (output E). }
  unfold run, main, read_libraries, dump, bind.
  rewrite Hin. cbn. rewrite Hrows. cbn. rewrite Hout. reflexivity.
Qed.

(** * Further properties of the script *)

(** ** The trace of a run *)


(** What a run adds after its loop has no request and no sleep. *)
Lemma run_trace (E : env) (ls : list (list string)) :
  input E = Lines ls ->
  exists tail,
    (run E).2 =
      (loop E (length (dict_reader ls)) 0 (dict_reader ls) []
         [banner (dict_reader ls)]).2 ++ tail
    /\ gate_view tail = [] /\ delays tail = [] /\ requests tail = [].
Proof.
  intros Hin. rewrite (run_unfold E ls Hin). cbv zeta.
  destruct (loop _ _ _ _ _ _) as [[out|e] tr]; cbn [snd].
  - destruct (out_writable E); cbn [snd].
    + eexists. split; [done|]. unfold closing_events. by destruct (_ =? _)%Z.
    + eexists. split; [done|]. unfold failed_dump_events. by destruct (output E).
  - exists []. by rewrite app_nil_r.
Qed.





(** ** The requests of a run *)

Lemma length_addresses (rows : list row) : length (addresses rows) <= length rows.
Proof.
  unfold addresses. induction rows as [|lib rows IH]; [done|].
  change (omap row_address (lib :: rows))
    with (match row_address lib with
          | Some a => a :: omap row_address rows
          | None => omap row_address rows
          end).
  destruct (row_address lib); simpl; lia.
Qed.

Lemma loop_requests (E : env) (n : nat) (rows : list row) :
  forall i coords tr,
    exists reqs,
      requests (loop E n i rows coords tr).2 = requests tr ++ reqs /\
      reqs `prefix_of` (build_request <$> addresses rows).
Proof.
  induction rows as [|lib rows IH]; intros i coords tr.
  - exists []. simpl. by rewrite app_nil_r.
  - cbn [loop]. unfold bind. rewrite loop_body_run. unfold addresses. simpl.
    destruct (row_address lib) as [a|]; destruct (row_id lib) as [id|];
      try (exists []; rewrite app_nil_r; split; [done|apply prefix_nil]).
    rewrite fmap_cons.
    destruct (answer E (n_requests tr) a) as [r|e]; cbn [snd].
    + destruct (IH (S i) (store coords (id, r)) (tr ++ iteration_events n i id a r))
        as (reqs & -> & Hpre).
      exists (build_request a :: reqs). split; [|by apply prefix_cons].
      rewrite requests_app. unfold iteration_events.
      destruct (_ <? _)%Z; simpl; by rewrite <- app_assoc.
    + exists [build_request a]. rewrite requests_app. split; [done|].
      apply prefix_cons, prefix_nil.
Qed.

(** X3: the requests of a run are the requests for the addresses of the
    records, in input order, each made once and none skipped, up to the
    record at which the run stops; so a run never makes more requests than
    the input has records. *)
Theorem requests_in_input_order (E : env) (ls : list (list string)) :
  input E = Lines ls ->
  requests (run E).2 `prefix_of` (build_request <$> addresses (dict_reader ls)) /\
  n_requests (run E).2 <= length (dict_reader ls).
Proof.
  intros Hin. destruct (run_trace E ls Hin) as (tail & Hrun & _ & _ & Htail).
  destruct (loop_requests E (length (dict_reader ls)) (dict_reader ls) 0 []
              [banner (dict_reader ls)]) as (reqs & Hreqs & Hpre).
  assert (requests (run E).2 = reqs) as Hall.
  { by rewrite Hrun, requests_app, Htail, app_nil_r, Hreqs. }
  split; [by rewrite Hall|].
  unfold n_requests. rewrite Hall.
  apply prefix_length in Hpre. rewrite length_fmap in Hpre.
  etrans; [done|]. apply length_addresses.
Qed.

(** ** What a lookup returns *)

(** The dict literal has a value exactly on an array whose first entry
    is an object with a ["lat"] and a ["lon"] that [float] accepts. *)
Lemma first_coordinate_Return (data : json) (c : Coordinate) :
  first_coordinate data = Return c <->
  exists members rest vlat vlon,
    data = JArr (JObj members :: rest) /\
    dict_get members "lat" = Some vlat /\ to_float vlat = Return (lat c) /\
    dict_get members "lon" = Some vlon /\ to_float vlon = Return (lng c).
Proof.
  split.
  - unfold first_coordinate.
    destruct data as [| | | |s|[|entry rest]|members]; try done.
    + by destruct s.
    + simpl. destruct entry as [| | | | | |members]; try done. simpl.
      destruct (dict_get members "lat") as [vlat|] eqn:Hlat; [|done]. simpl.
      destruct (to_float vlat) as [x|] eqn:Hx; [|done]. simpl.
      destruct (dict_get members "lon") as [vlon|] eqn:Hlon; [|done]. simpl.
      destruct (to_float vlon) as [y|] eqn:Hy; [|done]. simpl.
      intros [= <-]. by exists members, rest, vlat, vlon.
  - intros (members & rest & vlat & vlon & -> & Hlat & Hx & Hlon & Hy).
    unfold first_coordinate. simpl. rewrite Hlat, Hlon. simpl. rewrite Hx, Hy. simpl.
    by destruct c.
Qed.

(** X4: [geocode_address] returns a coordinate exactly when the reply
    is an array whose first entry is an object with a ["lat"] and a ["lon"]
    that [float] accepts, and the coordinate is what [float] makes of these
    two: the other entries and fields are never used. On every other reply
    that Python takes for true it raises. *)
Theorem coordinate_iff_first_entry (E : env) (address : cell) (tr : trace) :
  (forall c,
     (geocode_address E address tr).1 = Return (Some c) <->
     exists members rest vlat vlon,
       net E (n_requests tr) (build_request address)
         = Parsed (JArr (JObj members :: rest)) /\
       dict_get members "lat" = Some vlat /\ to_float vlat = Return (lat c) /\
       dict_get members "lon" = Some vlon /\ to_float vlon = Return (lng c)) /\
  (forall data,
     net E (n_requests tr) (build_request address) = Parsed data ->
     truthy data = true ->
     ~ (exists members rest vlat vlon x y,
          data = JArr (JObj members :: rest) /\
          dict_get members "lat" = Some vlat /\ to_float vlat = Return x /\
          dict_get members "lon" = Some vlon /\ to_float vlon = Return y) ->
     exists e, (geocode_address E address tr).1 = Raise e).
Proof.
  rewrite geocode_address_answer, answer_unfold. cbn [fst]. split.
  - intros c. split.
    + destruct (net E (n_requests tr) (build_request address)) as [| | |data]; try done.
      destruct (truthy data); [|done].
      destruct (first_coordinate data) as [c'|] eqn:Hfc; [|done]. simpl.
      intros [= ->]. apply first_coordinate_Return in Hfc
        as (members & rest & vlat & vlon & -> & ?). by exists members, rest, vlat, vlon.
    + intros (members & rest & vlat & vlon & -> & Hrest). simpl.
      assert (first_coordinate (JArr (JObj members :: rest)) = Return c) as ->.
      { apply first_coordinate_Return. by exists members, rest, vlat, vlon. }
      done.
  - intros data -> -> Hshape.
    destruct (first_coordinate data) as [c|e] eqn:Hfc; [|by exists e].
    exfalso. apply Hshape.
    apply first_coordinate_Return in Hfc as (members & rest & vlat & vlon & ? & ? & ? & ? & ?).
    by exists members, rest, vlat, vlon, (lat c), (lng c).
Qed.

(** X5: [geocode_address] returns [None] exactly when the reply parses
    to a value that Python takes for false: the empty array, but also an
    empty object, [null], [false], zero or the empty string. *)
Theorem none_iff_falsy_reply (E : env) (address : cell) (tr : trace) :
  (geocode_address E address tr).1 = Return None <->
  exists data,
    net E (n_requests tr) (build_request address) = Parsed data /\ truthy data = false.
Proof.
  rewrite geocode_address_answer, answer_unfold. cbn [fst].
  destruct (net E (n_requests tr) (build_request address)) as [| | |data];
    try (split; [done|by intros (? & ? & ?)]).
  destruct (truthy data) eqn:Htruthy.
  - split.
    + by destruct (first_coordinate data).
    + intros (data' & [= <-] & Hfalse). congruence.
  - split; [eauto|done].
Qed.

(** ** The end of a run *)


(** X7: the output path is opened after the loop only: when it cannot
    be opened, or the dump into it fails, and every record goes through,
    the run still makes all its requests, then ends with the [OSError] of
    the output path, no map dumped; the file is as it was when it could not
    be opened, emptied when it could. *)
Theorem unwritable_output_found_late (E : env) (ls : list (list string)) :
  input E = Lines ls ->
  out_writable E = false ->
  (forall lib, lib ∈ dict_reader ls -> is_Some (row_id lib)) ->
  (forall i lib, dict_reader ls !! i = Some lib ->
     exists r, lookup_of_row E i lib = Return r) ->
  (run E).1 = Raise (OSError OUTPUT_JSON) /\
  n_requests (run E).2 = length (dict_reader ls) /\
  writes (run E).2 = [] /\
  touched (run E).2 =
    match output E with TruncatesThenFails => [OUTPUT_JSON] | _ => [] end.
Proof.
  intros Hin Hw Hids Hlook.
  destruct (outcomes_of_lookups E (dict_reader ls) Hids Hlook) as (outs & Houts & _).
  pose proof (loop_touched E (length (dict_reader ls)) (dict_reader ls) 0 []
                [banner (dict_reader ls)]) as Htouch.
  destruct (loop_returns E (length (dict_reader ls)) (dict_reader ls) 0 []
              [banner (dict_reader ls)] outs Houts) as (evs & Hloop & Hwr & Hn).
  rewrite Hloop in Htouch. cbn [snd] in Htouch.
  destruct (failed_dump_events_silent E) as (_ & _ & Hfr & Hfw).
  rewrite (run_unfold E ls Hin). cbv zeta. rewrite Hloop, Hw. cbn [fst snd].
  split_and!.
  - done.
  - assert (n_requests (failed_dump_events E) = 0) as Hf0.
    { unfold n_requests. by rewrite Hfr. }
    rewrite !n_requests_app, Hn, Hf0. simpl. lia.
  - by rewrite !writes_app, Hwr, Hfw.
  - rewrite touched_app, Htouch. unfold out_writable in Hw. unfold failed_dump_events.
    by destruct (output E).
Qed.

(** ** The entries of the map *)

Lemma dict_get_foldl_store_inv (outs : list (cell * option Coordinate))
    (coords : ResultMap) (id : cell) (c : Coordinate) :
  dict_get (foldl store coords outs) id = Some c ->
  dict_get coords id = Some c \/ (id, Some c) ∈ outs.
Proof.
  revert coords. induction outs as [|[id' r] outs IH]; intros coords Hget; [by left|].
  apply IH in Hget as [Hget|Hin]; [|right; by right].
  destruct r as [c'|]; [|by left]. unfold store in Hget. simpl in Hget.
  destruct (decide (id' = id)) as [->|Hne].
  - rewrite dict_get_set_eq in Hget. injection Hget as ->. right. left.
  - rewrite dict_get_set_ne in Hget by done. by left.
Qed.

(** X8: when every record goes through, the map that is dumped has one
    entry for each id that got a coordinate from at least one of its
    records, and no other; and the coordinate of an entry is one that a
    lookup for a record of that id returned. Ids may repeat. *)
Theorem entries_are_hits (E : env) (ls : list (list string)) :
  input E = Lines ls ->
  out_writable E = true ->
  (forall lib, lib ∈ dict_reader ls -> is_Some (row_id lib)) ->
  (forall i lib, dict_reader ls !! i = Some lib ->
     exists r, lookup_of_row E i lib = Return r) ->
  exists out,
    writes (run E).2 = [(OUTPUT_JSON, out)] /\
    NoDup (keys out) /\
    (forall id, id ∈ keys out <->
       exists i lib c, dict_reader ls !! i = Some lib /\ row_id lib = Some id
                       /\ lookup_of_row E i lib = Return (Some c)) /\
    (forall id c, dict_get out id = Some c ->
       exists i lib, dict_reader ls !! i = Some lib /\ row_id lib = Some id
                     /\ lookup_of_row E i lib = Return (Some c)).
Proof.
  intros Hin Hw Hids Hlook. set (libs := dict_reader ls) in *.
  destruct (outcomes_of_lookups E libs Hids Hlook) as (outs & Houts & Hlen & _ & Hinv).
  destruct (run_returns E ls outs Hin Hw Houts) as (evs & Hrun & Hwr & _).
  fold libs in Hrun.
  assert (forall id c, (id, Some c) ∈ outs ->
            exists i lib, libs !! i = Some lib /\ row_id lib = Some id
                          /\ lookup_of_row E i lib = Return (Some c)) as Hfrom.
  { intros id c [i Hi]%list_elem_of_lookup.
    destruct (Hinv i _ Hi) as (lib & ? & ? & ?). by exists i, lib. }
  exists (foldl store [] outs). split_and!.
  - rewrite Hrun. simpl.
    change (banner libs :: evs ++ ?l) with ([banner libs] ++ evs ++ l).
    by rewrite !writes_app, Hwr, writes_closing_events.
  - apply NoDup_keys_foldl_store. apply NoDup_nil_2.
  - intros id. rewrite elem_of_keys_foldl_store. unfold keys at 1. simpl.
    rewrite elem_of_nil. unfold hits. rewrite list_elem_of_omap. split.
    + intros [[]|([id' [c|]] & Hin' & Heq)]; [|done]. simpl in Heq.
      injection Heq as ->. destruct (Hfrom id c Hin') as (i & lib & ?). eauto.
    + intros (i & lib & c & Hi & Hid & Hc). right.
      destruct (lookup_lt_is_Some_2 outs i) as [o Ho].
      { rewrite Hlen. by eapply lookup_lt_Some. }
      destruct (Hinv i o Ho) as (lib' & Hi' & Hid' & Hc').
      assert (lib' = lib) as -> by congruence.
      exists o. split; [by eapply list_elem_of_lookup_2|].
      destruct o as [id' r']. simpl in *.
      rewrite Hc in Hc'. injection Hc' as <-. congruence.
  - intros id c Hget. apply dict_get_foldl_store_inv in Hget as [Hget|Hin']; [done|].
    by apply Hfrom.
Qed.

(** ** Missing columns *)

Lemma answer_KeyError (E : env) (k : nat) (address : cell) (name : string) :
  answer E k address = Raise (KeyError (SubStr name)) -> name = "lat" \/ name = "lon".
Proof.
  rewrite answer_unfold.
  destruct (net E k (build_request address)) as [| | |data]; try done.
  destruct (truthy data); [|done]. unfold first_coordinate.
  destruct data as [| | | |s|[|entry rest]|members]; try done.
  - by destruct s.
  - simpl. destruct entry as [| | | | | |members]; try done. simpl.
    destruct (dict_get members "lat") as [vlat|]; simpl; [|intros [= <-]; by left].
    destruct (to_float vlat) as [x|e] eqn:Hx; simpl.
    + destruct (dict_get members "lon") as [vlon|]; simpl; [|intros [= <-]; by right].
      destruct (to_float vlon) as [y|e] eqn:Hy; simpl; [done|].
      intros [= ->]. unfold to_float in Hy. by repeat case_match.
    + intros [= ->]. unfold to_float in Hx. by repeat case_match.
Qed.

Lemma loop_Raise_inv (E : env) (n : nat) (rows : list row) :
  forall i coords tr e,
    (forall lib, lib ∈ rows -> is_Some (row_id lib) /\ is_Some (row_address lib)) ->
    (loop E n i rows coords tr).1 = Raise e ->
    exists k a, answer E k a = Raise e.
Proof.
  induction rows as [|lib rows IH]; intros i coords tr e Hwf; [done|].
  cbn [loop]. unfold bind. rewrite loop_body_run.
  destruct (Hwf lib) as [[id ->] [a ->]]; [left|].
  destruct (answer E (n_requests tr) a) as [r|e'] eqn:Ha.
  - apply IH. intros lib' Hin. apply Hwf. by right.
  - intros [= ->]. eauto.
Qed.

(** X9: a run ends with the [KeyError] of ["Id"] or of ["Address"] only
    when the header lacks that column, and then before any request: a file
    with a bad header costs no lookup. *)
Theorem column_error_before_any_request (E : env) (name : string) :
  name = "Id" \/ name = "Address" ->
  (run E).1 = Raise (KeyError (SubStr name)) ->
  n_requests (run E).2 = 0 /\
  exists fieldnames body, input E = Lines (fieldnames :: body) /\ (name ∉ fieldnames).
Proof.
  intros Hname Hraise. destruct (input E) as [|ls] eqn:Hin.
  { unfold run, main, read_libraries, bind in Hraise. by rewrite Hin in Hraise. }
  rewrite (run_unfold E ls Hin) in Hraise |- *. cbv zeta in Hraise |- *.
  destruct ls as [|fieldnames body].
  { simpl in Hraise. by destruct (out_writable E). }
  set (libs := dict_reader (fieldnames :: body)) in *.
  destruct (decide ("Id" ∈ fieldnames /\ "Address" ∈ fieldnames)) as [[HId HAd]|Hlack].
  - exfalso.
    destruct (loop E (length libs) 0 libs [] [banner libs]) as [[out|e] tr] eqn:Hloop.
    { by destruct (out_writable E). }
    cbn [fst] in Hraise. injection Hraise as ->.
    destruct (loop_Raise_inv E (length libs) libs 0 [] [banner libs]
                (KeyError (SubStr name))) as (k & a & Ha).
    { intros lib (line & _ & _ & ->)%elem_of_dict_reader.
      unfold row_id, row_address. rewrite !dict_get_is_Some, !elem_of_keys_make_row.
      done. }
    { by rewrite Hloop. }
    apply answer_KeyError in Ha. destruct Hname as [->| ->], Ha as [?|?]; done.
  - apply not_and_l in Hlack.
    destruct libs as [|lib rest] eqn:Hlibs.
    { simpl in Hraise. by destruct (out_writable E). }
    assert (exists line, lib = make_row fieldnames line) as [line ->].
    { destruct (elem_of_dict_reader fieldnames body lib) as (l & _ & _ & ?); [|eauto].
      fold libs. rewrite Hlibs. left. }
    destruct (loop_missing_column E (length (make_row fieldnames line :: rest)) 0
                fieldnames line rest [] [banner (make_row fieldnames line :: rest)] Hlack)
      as (name' & _ & Hnin & Hloop).
    rewrite Hloop in Hraise |- *. cbn [fst snd] in *.
    injection Hraise as ->. split; [done|]. by exists fieldnames, body.
Qed.

(** ** The cells of a record *)

Lemma foldl_dict_set_fresh {A} (kf : A -> string) (vf : A -> cell) (l : list A) :
  forall d : list (string * cell),
    NoDup (keys d ++ (kf <$> l)) ->
    foldl (fun d x => dict_set d (kf x) (vf x)) d l = d ++ ((fun x => (kf x, vf x)) <$> l).
Proof.
  induction l as [|x l IH]; intros d Hnd; simpl.
  - by rewrite app_nil_r.
  - rewrite fmap_cons in Hnd.
    assert (kf x ∉ keys d) as Hnew.
    { apply NoDup_app in Hnd as (_ & Hd & _). intros Hin. apply (Hd _ Hin). left. }
    rewrite dict_set_new by done. rewrite IH.
    + by rewrite <- app_assoc.
    + unfold keys. rewrite fmap_app. simpl. by rewrite <- app_assoc.
Qed.

Lemma dict_get_lookup {V} (d : list (string * V)) (i : nat) (k : string) (v : V) :
  NoDup (keys d) -> d !! i = Some (k, v) -> dict_get d k = Some v.
Proof.
  unfold keys. revert i. induction d as [|[k' v'] d IH]; intros i Hnd Hi; [done|].
  simpl in Hnd. apply NoDup_cons in Hnd as [Hnin Hnd]. simpl.
  destruct i as [|i]; simpl in Hi.
  - injection Hi as -> ->. by rewrite decide_True.
  - rewrite decide_False; [by eapply IH|].
    intros ->. apply Hnin. apply list_elem_of_fmap. exists (k, v).
    split; [done|]. by eapply list_elem_of_lookup_2.
Qed.

(** With a header whose names are distinct, the fields of a row are the
    cells of the line under the names of the header, then [None] under the
    names that the line is too short for. *)
Lemma fields_make_row (fieldnames line : list string) :
  NoDup fieldnames ->
  fields (make_row fieldnames line) =
    ((fun kv => (kv.1, Str kv.2)) <$> zip fieldnames line)
    ++ ((fun k => (k, NoneVal)) <$> drop (length line) fieldnames).
Proof.
  intros Hnd.
  assert (foldl (fun d kv => dict_set d kv.1 (Str kv.2)) [] (zip fieldnames line)
          = (fun kv : string * string => (kv.1, Str kv.2)) <$> zip fieldnames line) as Hzip.
  { rewrite (foldl_dict_set_fresh fst (fun kv => Str kv.2)); [done|].
    simpl. rewrite fst_zip_take. eapply sublist_NoDup; [done|apply sublist_take]. }
  unfold make_row. rewrite Hzip.
  destruct (length fieldnames <? length line) eqn:Hlong;
    [|destruct (length line <? length fieldnames) eqn:Hshort]; simpl.
  - apply Nat.ltb_lt in Hlong. rewrite drop_ge by lia. by rewrite app_nil_r.
  - rewrite (foldl_dict_set_fresh id (fun _ => NoneVal)); [done|].
    unfold keys. rewrite <- list_fmap_compose, list_fmap_id.
    change (fst ∘ _) with (@fst string string). rewrite fst_zip_take.
    by rewrite take_drop.
  - apply Nat.ltb_ge in Hlong. apply Nat.ltb_ge in Hshort.
    rewrite drop_ge by lia. by rewrite app_nil_r.
Qed.

(** X10: with a header whose names are distinct, [lib[name]] is the
    cell of the line in the column that the header gives that name, wherever
    the column stands, and [None] when the line is too short to have it: a
    short line is not an error for the reader. *)
Theorem cell_by_column_name (fieldnames line : list string) (p : nat) (name : string) :
  NoDup fieldnames ->
  fieldnames !! p = Some name ->
  dict_get (fields (make_row fieldnames line)) name =
    Some (match line !! p with Some s => Str s | None => NoneVal end).
Proof.
  intros Hnd Hp. rewrite (fields_make_row _ _ Hnd).
  assert (NoDup (keys (((fun kv : string * string => (kv.1, Str kv.2)) <$> zip fieldnames line)
                       ++ ((fun k => (k, NoneVal)) <$> drop (length line) fieldnames))))
    as Hkeys.
  { unfold keys. rewrite fmap_app, <- !list_fmap_compose.
    change ((fst ∘ (fun kv : string * string => (kv.1, Str kv.2))) <$> zip fieldnames line)
      with ((zip fieldnames line).*1).
    change ((fst ∘ (fun k : string => (k, NoneVal))) <$> drop (length line) fieldnames)
      with (id <$> drop (length line) fieldnames).
    by rewrite fst_zip_take, list_fmap_id, take_drop. }
  apply (dict_get_lookup _ p); [done|].
  destruct (line !! p) as [s|] eqn:Hline.
  - rewrite lookup_app_l.
    + rewrite list_lookup_fmap, lookup_zip_with, Hp. simpl. by rewrite Hline.
    + rewrite length_fmap, length_zip_with.
      apply lookup_lt_Some in Hp. apply lookup_lt_Some in Hline. lia.
  - apply lookup_ge_None in Hline. apply lookup_lt_Some in Hp as Hlt.
    assert (length ((fun kv : string * string => (kv.1, Str kv.2)) <$> zip fieldnames line)
            = length line) as Hlen.
    { rewrite length_fmap, length_zip_with. lia. }
    rewrite lookup_app_r; rewrite Hlen; [|done].
    rewrite list_lookup_fmap, lookup_drop.
    replace (length line + (p - length line)) with p by lia. by rewrite Hp.
Qed.

(** ** All that a run does *)

Lemma loop_events (E : env) (n : nat) (rows : list row) :
  forall i coords tr outs,
    n_requests tr = i ->
    row_outcomes E i rows = Return <$> outs ->
    (loop E n i rows coords tr).2 = tr ++ records_events E n i rows.
Proof.
  induction rows as [|lib rows IH]; intros i coords tr outs Hi Houts.
  - simpl. by rewrite app_nil_r.
  - destruct outs as [|[id r] outs]; [done|]. simpl in Houts.
    injection Houts as Ho Houts.
    apply row_outcome_Return in Ho as (a & Hid & Ha & Hr). simpl in Hid, Hr.
    cbn [loop records_events]. unfold bind, record_events.
    rewrite loop_body_run, Hid, Ha, Hi, Hr.
    rewrite (IH (S i) _ _ outs); [by rewrite <- app_assoc| |done].
    rewrite n_requests_app, n_requests_iteration_events. lia.
Qed.

(** X11: when every record goes through and the output path can be
    opened, the run does exactly this, in this order: it prints the banner;
    for each record in input order it prints the progress line, makes the
    request, prints the result line and, unless the record is the last,
    sleeps one second; then it dumps the map and prints the summary. *)
Theorem complete_run_trace (E : env) (ls : list (list string)) :
  input E = Lines ls ->
  out_writable E = true ->
  (forall lib, lib ∈ dict_reader ls -> is_Some (row_id lib)) ->
  (forall i lib, dict_reader ls !! i = Some lib ->
     exists r, lookup_of_row E i lib = Return r) ->
  exists out,
    run E =
      (Return tt,
       banner (dict_reader ls)
         :: records_events E (length (dict_reader ls)) 0 (dict_reader ls)
         ++ closing_events (dict_reader ls) out).
Proof.
  intros Hin Hw Hids Hlook. set (libs := dict_reader ls) in *.
  destruct (outcomes_of_lookups E libs Hids Hlook) as (outs & Houts & _).
  destruct (loop_returns E (length libs) libs 0 [] [banner libs] outs Houts)
    as (evs & Hloop & _).
  pose proof (loop_events E (length libs) libs 0 [] [banner libs] outs eq_refl Houts)
    as Hevs.
  rewrite Hloop in Hevs. cbn [snd] in Hevs.
  exists (foldl store [] outs).
  rewrite (run_unfold E ls Hin). cbv zeta. fold libs. rewrite Hloop, Hw, Hevs.
  by rewrite <- app_assoc.
Qed.

End Facts.

(** * The properties on the examples *)

#[local] Existing Instance sample_runtime.

Ltac each_row Hin :=
  vm_compute in Hin;
  repeat (apply elem_of_cons in Hin as [->|Hin]; [eexists; reflexivity|]);
  by apply elem_of_nil in Hin.

Ltac each_index i Hi :=
  repeat (destruct i as [|i];
          [vm_compute in Hi; injection Hi as <-; try eexists; vm_compute; reflexivity|]);
  vm_compute in Hi; discriminate Hi.

Ltac not_among Hin :=
  repeat (apply elem_of_cons in Hin as [Hin|Hin]; [discriminate Hin|]);
  by apply elem_of_nil in Hin.

Lemma c1_c2 : c1 <> c2.
Proof.
  intros Heq. apply (f_equal (fun c => PrimFloat.eqb (lat c) 42.5)) in Heq.
  vm_compute in Heq. discriminate Heq.
Qed.

Lemma all_found_output_witness :
  exists out,
    (run env_two).1 = Return tt /\
    writes (run env_two).2 = [(OUTPUT_JSON, out)] /\
    NoDup (keys out) /\
    (forall id, id ∈ keys out <-> id ∈ ids (dict_reader two_rows)) /\
    (NoDup (ids (dict_reader two_rows)) ->
       keys out = ids (dict_reader two_rows) /\ length out = length (dict_reader two_rows)).
Proof.
  apply (all_found_output env_two two_rows).
  - reflexivity.
  - reflexivity.
  - intros lib Hin. each_row Hin.
  - intros i lib Hi. each_index i Hi.
Defined.

(** C1, as stated, fails when an id occurs twice: both lookups return a
    coordinate, and the map of the 2 records has 1 entry. *)
Lemma duplicate_ids_one_entry :
  input env_dup = Lines dup_rows /\
  (forall lib, lib ∈ dict_reader dup_rows -> is_Some (row_id lib) /\ is_Some (row_address lib)) /\
  (forall i lib, dict_reader dup_rows !! i = Some lib ->
     exists c, lookup_of_row env_dup i lib = Return (Some c)) /\
  length (dict_reader dup_rows) = 2 /\
  (run env_dup).1 = Return tt /\
  writes (run env_dup).2 = [(OUTPUT_JSON, [(Str "LIB01", c2)])] /\
  length [(Str "LIB01", c2)] <> length (dict_reader dup_rows).
Proof.
  split_and!.
  - reflexivity.
  - intros lib Hin. vm_compute in Hin.
    repeat (apply elem_of_cons in Hin as [->|Hin]; [split; eexists; reflexivity|]).
    by apply elem_of_nil in Hin.
  - intros i lib Hi. each_index i Hi.
  - reflexivity.
  - vm_compute. reflexivity.
  - vm_compute. reflexivity.
  - vm_compute. discriminate.
Qed.

Lemma misses_output_witness :
  exists out evs,
    run env_miss =
      (Return tt,
       evs ++ [EvWrite OUTPUT_JSON out; EvPrint (wrote_line out +:+ nl)]
           ++ (if decide (size ({[1]} : gset nat) = 0) then []
               else [EvPrint (warning_line (Z.of_nat (size ({[1]} : gset nat))) +:+ nl)]))
    /\ writes evs = []
    /\ length out = length (dict_reader two_rows) - size ({[1]} : gset nat).
Proof.
  apply (misses_output env_miss two_rows {[1]}).
  - reflexivity.
  - reflexivity.
  - intros lib Hin. each_row Hin.
  - intros i ->%elem_of_singleton. simpl. lia.
  - intros i lib Hi. destruct i as [|[|i]].
    + rewrite decide_False by set_solver.
      vm_compute in Hi. injection Hi as <-. eexists. vm_compute. reflexivity.
    + rewrite decide_True by set_solver.
      vm_compute in Hi. injection Hi as <-. vm_compute. reflexivity.
    + vm_compute in Hi. discriminate Hi.
  - intros i j li lj Hi Hj Hni Hnj _.
    destruct i as [|[|i]]; [|set_solver|vm_compute in Hi; discriminate Hi].
    destruct j as [|[|j]]; [done|set_solver|vm_compute in Hj; discriminate Hj].
Defined.

(** C2, as stated, fails when an id occurs twice: no lookup returns
    [None] (S is empty), the map of the 2 records has 1 entry, and the run
    ends with a warning that reports 1 failure. *)
Lemma duplicate_ids_phantom_failure :
  (forall i lib, dict_reader dup_rows !! i = Some lib ->
     if decide (i ∈ (∅ : gset nat)) then lookup_of_row env_dup i lib = Return None
     else exists c, lookup_of_row env_dup i lib = Return (Some c)) /\
  (run env_dup).1 = Return tt /\
  writes (run env_dup).2 = [(OUTPUT_JSON, [(Str "LIB01", c2)])] /\
  length [(Str "LIB01", c2)] <> length (dict_reader dup_rows) - size (∅ : gset nat) /\
  last (run env_dup).2 = Some (EvPrint (warning_line 1 +:+ nl)) /\
  1%Z <> Z.of_nat (size (∅ : gset nat)).
Proof.
  split_and!.
  - intros i lib Hi. rewrite decide_False by set_solver. each_index i Hi.
  - vm_compute. reflexivity.
  - vm_compute. reflexivity.
  - rewrite size_empty. simpl. lia.
  - vm_compute. reflexivity.
  - rewrite size_empty. lia.
Qed.

Lemma lookup_error_aborts_witness :
  (run env_fail).1 = Raise URLError /\
  writes (run env_fail).2 = [] /\
  n_requests (run env_fail).2 = 2 /\
  last (run env_fail).2 = Some (EvRequest (build_request (Str "Lamont"))) /\
  touched (run env_fail).2 = [].
Proof.
  apply (lookup_error_aborts env_fail two_rows 1
           (make_row ["Id"; "Address"] ["LIB02"; "Lamont"]) (Str "Lamont") URLError).
  - reflexivity.
  - reflexivity.
  - intros j lib' Hj Hlib. destruct j as [|j]; [|lia].
    vm_compute in Hlib. injection Hlib as <-. eexists. vm_compute. reflexivity.
  - eexists. reflexivity.
  - reflexivity.
  - vm_compute. reflexivity.
Defined.

Lemma geocode_address_first_entry_witness :
  (geocode_address env_miss (Str "Widener") []).1 = Return (Some c1) /\
  (geocode_address env_miss (Str "Lamont")
     [EvRequest (build_request (Str "Widener"))]).1 = Return None.
Proof.
  split.
  - refine (proj2 (geocode_address_first_entry env_miss (Str "Widener") []
                     [JObj [("lat", JStr "42.5"); ("lon", JStr "-71.125")]] _)
              _ _ _ (JStr "42.5") (JStr "-71.125") _ _ eq_refl eq_refl _ _ _ _);
      reflexivity.
  - apply (proj1 (geocode_address_first_entry env_miss (Str "Lamont")
                    [EvRequest (build_request (Str "Widener"))] [] eq_refl)).
    reflexivity.
Defined.

Lemma delays_between_lookups_witness :
  n_requests (run env_two).2 = length (dict_reader two_rows) /\
  delays (run env_two).2 = replicate (length (dict_reader two_rows) - 1) 1%Z /\
  gate_view (run env_two).2 = gate_pattern (length (dict_reader two_rows)) /\
  (forall p, gate_view (run env_two).2 !! p = Some Delay ->
     exists q, p = S q /\ gate_view (run env_two).2 !! q = Some Lookup
               /\ gate_view (run env_two).2 !! S p = Some Lookup).
Proof.
  apply (delays_between_lookups env_two two_rows).
  - reflexivity.
  - simpl. lia.
  - intros lib Hin. each_row Hin.
  - intros i lib Hi. each_index i Hi.
Defined.

Lemma coords_grow_witness :
  (exists ks, keys [(Str "LIB01", c2)] = keys ([] : ResultMap) ++ ks
              /\ ks `sublist_of` ids (dict_reader dup_rows)) /\
  (forall id, id ∉ ids (dict_reader dup_rows) ->
     dict_get [(Str "LIB01", c2)] id = dict_get ([] : ResultMap) id) /\
  (NoDup (keys ([] : ResultMap)) -> NoDup (keys [(Str "LIB01", c2)])) /\
  (forall id,
     (forall j lib, dict_reader dup_rows !! j = Some lib -> row_id lib = Some id ->
        lookup_of_row env_dup (n_requests [banner (dict_reader dup_rows)] + j) lib
          = Return None) ->
     dict_get [(Str "LIB01", c2)] id = dict_get ([] : ResultMap) id) /\
  (forall j lib id c,
     dict_reader dup_rows !! j = Some lib -> row_id lib = Some id ->
     lookup_of_row env_dup (n_requests [banner (dict_reader dup_rows)] + j) lib
       = Return (Some c) ->
     (forall j' lib', j < j' -> dict_reader dup_rows !! j' = Some lib' ->
        row_id lib' = Some id ->
        lookup_of_row env_dup (n_requests [banner (dict_reader dup_rows)] + j') lib'
          = Return None) ->
     dict_get [(Str "LIB01", c2)] id = Some c).
Proof.
  apply (coords_grow env_dup 2 0 (dict_reader dup_rows) []
           [(Str "LIB01", c2)] [banner (dict_reader dup_rows)]).
  vm_compute. reflexivity.
Defined.

(** C6, as stated, fails when an id occurs twice: the first iteration
    stores [c1] for the id, the second one replaces it by [c2]. *)
Lemma entry_updated_on_duplicate_id :
  exists lib1 lib2 tr1 tr2,
    dict_reader dup_rows = [lib1; lib2] /\
    loop_body env_dup 2 0 lib1 [] [banner [lib1; lib2]] = (Return [(Str "LIB01", c1)], tr1) /\
    loop_body env_dup 2 1 lib2 [(Str "LIB01", c1)] tr1 = (Return [(Str "LIB01", c2)], tr2) /\
    dict_get [(Str "LIB01", c1)] (Str "LIB01") = Some c1 /\
    dict_get [(Str "LIB01", c2)] (Str "LIB01") = Some c2 /\
    c1 <> c2.
Proof.
  do 4 eexists. split_and!; try (vm_compute; reflexivity). apply c1_c2.
Qed.

Lemma reader_failures_witness :
  run env_unreadable = (Raise (OSError INPUT_CSV), []) /\
  exists name,
    (name = "Id" \/ name = "Address") /\ (name ∉ ["Name"; "Address"]) /\
    run env_no_id =
      (Raise (KeyError (SubStr name)),
       [banner (dict_reader [["Name"; "Address"]; ["Widener Library"; "Widener"]])]).
Proof.
  split.
  - apply (proj1 (reader_failures env_unreadable)). reflexivity.
  - apply (proj2 (reader_failures env_no_id) ["Name"; "Address"]
             [["Widener Library"; "Widener"]] ["Widener Library"; "Widener"]).
    + reflexivity.
    + left. intros Hin. not_among Hin.
    + left.
    + discriminate.
Defined.

(** C7, as stated, fails on a file that has the header only: the header
    lacks ["Id"], and the run ends normally after dumping the empty map. *)
Lemma header_only_not_checked :
  input env_header_only = Lines [["Name"; "Address"]] /\
  ("Id" ∉ ["Name"; "Address"]) /\
  run env_header_only =
    (Return tt,
     [EvPrint ("Geocoding 0 libraries..." +:+ nl);
      EvWrite OUTPUT_JSON [];
      EvPrint (nl +:+ "Wrote 0 coordinates to public/library-coords.json" +:+ nl)]).
Proof.
  split_and!.
  - reflexivity.
  - intros Hin. not_among Hin.
  - vm_compute. reflexivity.
Qed.

Lemma empty_input_run_witness :
  run env_empty =
    (Return tt,
     [EvPrint ("Geocoding 0 libraries..." +:+ nl);
      EvWrite OUTPUT_JSON [];
      EvPrint (nl +:+ "Wrote 0 coordinates to public/library-coords.json" +:+ nl)]).
Proof.
  apply (empty_input_run env_empty [["Id"; "Address"]; []]); reflexivity.
Defined.

Lemma miss_keeps_entry_witness :
  exists out,
    writes (run env_dup_miss).2 = [(OUTPUT_JSON, out)] /\
    dict_get out (Str "LIB01") = Some c1.
Proof.
  apply (miss_keeps_entry env_dup_miss dup_rows 0
           (make_row ["Id"; "Address"] ["LIB01"; "Widener"]) (Str "LIB01") c1).
  - reflexivity.
  - reflexivity.
  - intros lib Hin. each_row Hin.
  - intros j lib Hj. each_index j Hj.
  - reflexivity.
  - reflexivity.
  - vm_compute. reflexivity.
  - intros j lib' Hlt Hj _. destruct j as [|[|j]]; [lia| |vm_compute in Hj; discriminate Hj].
    vm_compute in Hj. injection Hj as <-. vm_compute. reflexivity.
Defined.

(** ** The further properties on the examples *)


Lemma requests_in_input_order_witness :
  requests (run env_fail).2 `prefix_of` (build_request <$> addresses (dict_reader two_rows)) /\
  n_requests (run env_fail).2 <= length (dict_reader two_rows).
Proof. apply (requests_in_input_order env_fail two_rows). reflexivity. Defined.

Lemma coordinate_iff_first_entry_witness :
  (exists members rest vlat vlon,
     net env_two (n_requests []) (build_request (Str "Widener"))
       = Parsed (JArr (JObj members :: rest)) /\
     dict_get members "lat" = Some vlat /\ to_float vlat = Return (lat c1) /\
     dict_get members "lon" = Some vlon /\ to_float vlon = Return (lng c1)) /\
  (exists e, (geocode_address env_no_fields (Str "Widener") []).1 = Raise e).
Proof.
  split.
  - apply (proj1 (coordinate_iff_first_entry env_two (Str "Widener") []) c1).
    vm_compute. reflexivity.
  - apply (proj2 (coordinate_iff_first_entry env_no_fields (Str "Widener") [])
             (JArr [JObj []])).
    + reflexivity.
    + reflexivity.
    + intros (members & rest & vlat & vlon & x & y & Hdata & Hlat & _).
      injection Hdata as <- _. discriminate Hlat.
Defined.


Lemma unwritable_output_found_late_witness :
  (run env_readonly).1 = Raise (OSError OUTPUT_JSON) /\
  n_requests (run env_readonly).2 = length (dict_reader two_rows) /\
  writes (run env_readonly).2 = [] /\
  touched (run env_readonly).2 =
    match output env_readonly with TruncatesThenFails => [OUTPUT_JSON] | _ => [] end.
Proof.
  apply (unwritable_output_found_late env_readonly two_rows).
  - reflexivity.
  - reflexivity.
  - intros lib Hin. each_row Hin.
  - intros i lib Hi. each_index i Hi.
Defined.

Lemma entries_are_hits_witness :
  exists out,
    writes (run env_dup_miss).2 = [(OUTPUT_JSON, out)] /\
    NoDup (keys out) /\
    (forall id, id ∈ keys out <->
       exists i lib c, dict_reader dup_rows !! i = Some lib /\ row_id lib = Some id
                       /\ lookup_of_row env_dup_miss i lib = Return (Some c)) /\
    (forall id c, dict_get out id = Some c ->
       exists i lib, dict_reader dup_rows !! i = Some lib /\ row_id lib = Some id
                     /\ lookup_of_row env_dup_miss i lib = Return (Some c)).
Proof.
  apply (entries_are_hits env_dup_miss dup_rows).
  - reflexivity.
  - reflexivity.
  - intros lib Hin. each_row Hin.
  - intros i lib Hi. each_index i Hi.
Defined.

Lemma column_error_before_any_request_witness :
  n_requests (run env_no_id).2 = 0 /\
  exists fieldnames body,
    input env_no_id = Lines (fieldnames :: body) /\ ("Id" ∉ fieldnames).
Proof.
  apply (column_error_before_any_request env_no_id "Id").
  - by left.
  - vm_compute. reflexivity.
Defined.

Lemma cell_by_column_name_witness :
  dict_get (fields (make_row ["Name"; "Address"; "Id"] ["Widener Library"; "Widener"])) "Id"
    = Some NoneVal /\
  dict_get (fields (make_row ["Name"; "Address"; "Id"] ["Widener Library"; "Widener"]))
    "Address" = Some (Str "Widener").
Proof.
  split.
  - apply (cell_by_column_name ["Name"; "Address"; "Id"]
             ["Widener Library"; "Widener"] 2 "Id"); [|reflexivity].
    repeat (apply NoDup_cons; split; [intros Hin; not_among Hin|]). apply NoDup_nil_2.
  - apply (cell_by_column_name ["Name"; "Address"; "Id"]
             ["Widener Library"; "Widener"] 1 "Address"); [|reflexivity].
    repeat (apply NoDup_cons; split; [intros Hin; not_among Hin|]). apply NoDup_nil_2.
Defined.

Lemma complete_run_trace_witness :
  exists out,
    run env_miss =
      (Return tt,
       banner (dict_reader two_rows)
         :: records_events env_miss (length (dict_reader two_rows)) 0 (dict_reader two_rows)
         ++ closing_events (dict_reader two_rows) out).
Proof.
  apply (complete_run_trace env_miss two_rows).
  - reflexivity.
  - reflexivity.
  - intros lib Hin. each_row Hin.
  - intros i lib Hi. each_index i Hi.
Defined.
